(** * etl_pipeline.py: hybrid join, batch loader and date dimension

  A shallow embedding of [src/etl_pipeline.py].  Python values are
  modelled by an inductive type of cells, exceptions by a [result]
  type, [dict]s (whose key order is observable) by association lists
  with Python's insertion-order discipline, the hash table of
  [HybridJoin.hash_join] by a [gmap], pandas frames by their column
  labels and row tuples, and the MySQL driver by an oracle threaded
  through a small state-and-exception monad.

  Floating-point cells (NaN included) are outside the model: a cell is
  an integer or a string. *)

From Stdlib Require Import ZArith List String Ascii Bool Lia Permutation.
From stdpp Require Import base decidable countable gmap strings list pretty.

Import ListNotations.

(** ** Python: exceptions and results *)

Module Py.

(** The exceptions the modelled code meets, all subclasses of
    [Exception]; [DriverError] is [mysql.connector.Error]. *)
Inductive exn : Type :=
| KeyError (key : string)
| ValueError (msg : string)
| UnboundLocalError (name : string)
| DriverError (msg : string).

(** [str(e)], up to the wording of the message around its argument. *)
Definition str (e : exn) : string :=
  match e with
  | KeyError key => key
  | ValueError msg => msg
  | UnboundLocalError name => name
  | DriverError msg => msg
  end.

Inductive result (A : Type) : Type :=
| Returned (a : A)
| Raised (e : exn).

Arguments Returned {A} a.
Arguments Raised {A} e.

Definition bind {A B : Type} (r : result A) (k : A -> result B) : result B :=
  match r with
  | Returned a => k a
  | Raised e => Raised e
  end.

(** Cells of a frame. *)
Inductive value : Type :=
| VInt (z : Z)
| VStr (s : string).

(** ** [dict] with string keys: insertion-ordered, keys unique *)

Definition dict : Type := list (string * value).

Definition keys (d : dict) : list string := map fst d.

Fixpoint dict_get (d : dict) (k : string) : option value :=
  match d with
  | [] => None
  | (k', v) :: rest => if String.eqb k' k then Some v else dict_get rest k
  end.

(** [d[k] = v]: an existing key keeps its position, a new key goes last. *)
Fixpoint dict_set (d : dict) (k : string) (v : value) : dict :=
  match d with
  | [] => [(k, v)]
  | (k', v') :: rest =>
      if String.eqb k' k then (k', v) :: rest else (k', v') :: dict_set rest k v
  end.

(** [{**a, **b}] *)
Definition dict_merge (a b : dict) : dict :=
  fold_left (fun d kv => dict_set d (fst kv) (snd kv)) b a.

(** [range(start, stop, step)] *)
Definition range (start stop step : Z) : result (list Z) :=
  if (step =? 0)%Z then Raised (ValueError "range() arg 3 must not be zero")
  else
    let n :=
      if (0 <? step)%Z
      then (if (start <? stop)%Z then ((stop - start - 1) / step + 1)%Z else 0%Z)
      else (if (stop <? start)%Z then ((start - stop - 1) / (- step) + 1)%Z else 0%Z) in
    Returned (map (fun j => (start + Z.of_nat j * step)%Z) (seq 0 (Z.to_nat n))).

(** [l[i:j]] for a list of length [n]: negative bounds count from the
    end, and both bounds are clipped to [0..n]. *)
Definition slice_bound (n x : Z) : Z :=
  if (x <? 0)%Z then Z.max (x + n) 0 else Z.min x n.

Definition slice {A : Type} (l : list A) (i j : Z) : list A :=
  let n := Z.of_nat (length l) in
  let lo := slice_bound n i in
  let hi := slice_bound n j in
  firstn (Z.to_nat (hi - lo)) (skipn (Z.to_nat lo) l).

End Py.

Export Py.

Declare Scope py_scope.
Delimit Scope py_scope with py.
Notation "x <- r ;; k" := (Py.bind r (fun x => k))
(at level 100, r at next level, right associativity) : py_scope.

#[global] Instance value_eq_dec : EqDecision value.
Proof. solve_decision. Defined.

Definition value_to_sum (v : value) : Z + string :=
match v with
| VInt z => inl z
| VStr s => inr s
end.

Definition value_of_sum (x : Z + string) : value :=
match x with
| inl z => VInt z
| inr s => VStr s
end.

#[global] Instance value_countable : Countable value.
Proof.
apply (inj_countable' value_to_sum value_of_sum).
intros []; reflexivity.
Defined.

(** ** pandas: frames and row series *)

Module Pandas.

(** A row as yielded by [iterrows]: the frame's column labels paired
    with the row's cells. *)
Definition Series : Type := list (string * value).

Record DataFrame : Type := mkDataFrame {
  columns : list string;
  data : list (list value)
}.

(** [pd.DataFrame()] *)
Definition empty_frame : DataFrame := mkDataFrame [] [].

(** [len(df)] *)
Definition len (df : DataFrame) : Z := Z.of_nat (length (data df)).

(** The rows of [df.iterrows()], without their index labels. *)
Definition iterrows (df : DataFrame) : list Series :=
  map (fun cells => combine (columns df) cells) (data df).

(** [row[key]] *)
Fixpoint getitem (row : Series) (key : string) : result value :=
  match row with
  | [] => Raised (KeyError key)
  | (c, v) :: rest => if String.eqb c key then Returned v else getitem rest key
  end.

(** [row.to_dict()] *)
Definition to_dict (row : Series) : dict :=
  fold_left (fun d cv => dict_set d (fst cv) (snd cv)) row [].

(** [pd.DataFrame(records)] for records that all carry the same keys in
    the same order, which is how both joins build them. *)
Definition DataFrame_of_records (records : list dict) : DataFrame :=
  match records with
  | [] => empty_frame
  | d :: _ => mkDataFrame (keys d) (map (map snd) records)
  end.

(** [df[i:j]]: positional row slice. *)
Definition row_slice (df : DataFrame) (i j : Z) : DataFrame :=
  mkDataFrame (columns df) (slice (data df) i j).

(** Labels are distinct and every row has one cell per label. *)
Definition wf_frame (df : DataFrame) : Prop :=
  NoDup (columns df) /\
  Forall (fun cells => length cells = length (columns df)) (data df).

End Pandas.

Export Pandas.

(** ** class HybridJoin *)

Module HybridJoin.

Local Open Scope py_scope.

(** The build loop of [hash_join]. *)
Fixpoint build (rows : list Series) (build_key : string)
    (hash_table : gmap value (list Series)) : result (gmap value (list Series)) :=
  match rows with
  | [] => Returned hash_table
  | row :: rest =>
      key_value <- getitem row build_key ;;
      let hash_table :=
        match hash_table !! key_value with
        | None => <[key_value := []]> hash_table
        | Some _ => hash_table
        end in
      build rest build_key (alter (fun bucket => bucket ++ [row]) key_value hash_table)
  end.

(** [combined], under either value of [swap]. *)
Definition combine_rows (swap : bool) (probe_row build_row : Series) : dict :=
  if swap
  then dict_merge (to_dict probe_row) (to_dict build_row)
  else dict_merge (to_dict build_row) (to_dict probe_row).

(** The probe loop of [hash_join]. *)
Fixpoint probe (rows : list Series) (probe_key : string)
    (hash_table : gmap value (list Series)) (swap : bool)
    (result_rows : list dict) : result (list dict) :=
  match rows with
  | [] => Returned result_rows
  | probe_row :: rest =>
      key_value <- getitem probe_row probe_key ;;
      let result_rows :=
        match hash_table !! key_value with
        | Some bucket =>
            fold_left
              (fun acc build_row => acc ++ [combine_rows swap probe_row build_row])
              bucket result_rows
        | None => result_rows
        end in
      probe rest probe_key hash_table swap result_rows
  end.

(** [result_rows] of [hash_join]; [join_type] is accepted and not used. *)
Definition hash_join_rows (left_df right_df : DataFrame)
    (left_key right_key : string) (join_type : string) : result (list dict) :=
  let '(build_df, probe_df, build_key, probe_key, swap) :=
    if (len left_df <=? len right_df)%Z
    then (left_df, right_df, left_key, right_key, false)
    else (right_df, left_df, right_key, left_key, true) in
  hash_table <- build (iterrows build_df) build_key ∅ ;;
  probe (iterrows probe_df) probe_key hash_table swap [].

Definition hash_join (left_df right_df : DataFrame)
    (left_key right_key : string) (join_type : string) : result DataFrame :=
  result_rows <- hash_join_rows left_df right_df left_key right_key join_type ;;
  Returned (DataFrame_of_records result_rows).

(** The inner loop of [nested_loop_join]. *)
Fixpoint nested_inner (left_row : Series) (rights : list Series)
    (condition_func : Series -> Series -> result bool)
    (result_rows : list dict) : result (list dict) :=
  match rights with
  | [] => Returned result_rows
  | right_row :: rest =>
      c <- condition_func left_row right_row ;;
      nested_inner left_row rest condition_func
        (if c : bool
         then result_rows ++ [dict_merge (to_dict left_row) (to_dict right_row)]
         else result_rows)
  end.

Fixpoint nested_outer (lefts rights : list Series)
    (condition_func : Series -> Series -> result bool)
    (result_rows : list dict) : result (list dict) :=
  match lefts with
  | [] => Returned result_rows
  | left_row :: rest =>
      result_rows <- nested_inner left_row rights condition_func result_rows ;;
      nested_outer rest rights condition_func result_rows
  end.

Definition nested_loop_join_rows (left_df right_df : DataFrame)
    (condition_func : Series -> Series -> result bool) : result (list dict) :=
  nested_outer (iterrows left_df) (iterrows right_df) condition_func [].

Definition nested_loop_join (left_df right_df : DataFrame)
    (condition_func : Series -> Series -> result bool) : result DataFrame :=
  result_rows <- nested_loop_join_rows left_df right_df condition_func ;;
  Returned (DataFrame_of_records result_rows).

End HybridJoin.

(** ** class DataTransformer: the date dimension *)

Module DataTransformer.

Local Open Scope Z_scope.

Record date : Type := mkDate { year : Z; month : Z; day : Z }.

Definition is_leap (y : Z) : bool :=
  (y mod 4 =? 0) && (negb (y mod 100 =? 0) || (y mod 400 =? 0)).

Definition days_in_month (y m : Z) : Z :=
  if m =? 2 then (if is_leap y then 29 else 28)
  else if (m =? 4) || (m =? 6) || (m =? 9) || (m =? 11) then 30
  else 31.

Definition valid_date (d : date) : bool :=
  (1 <=? month d) && (month d <=? 12) &&
  (1 <=? day d) && (day d <=? days_in_month (year d) (month d)).

(** A [Timestamp] at midnight, as pandas stores it: a count of days
    from 1970-01-01 in the proleptic Gregorian calendar. *)
Definition Timestamp : Type := Z.

(** The days a 64-bit count of nanoseconds reaches: 1677-09-22 to
    2262-04-11. *)
Definition in_bounds (t : Timestamp) : bool :=
  (-106751 <=? t) && (t <=? 106751).

Definition days_from_civil (d : date) : Timestamp :=
  let y := if month d <=? 2 then year d - 1 else year d in
  let era := y / 400 in
  let yoe := y - era * 400 in
  let mp := if 2 <? month d then month d - 3 else month d + 9 in
  let doy := (153 * mp + 2) / 5 + day d - 1 in
  let doe := yoe * 365 + yoe / 4 - yoe / 100 + doy in
  era * 146097 + doe - 719468.

Definition civil_from_days (t : Timestamp) : date :=
  let z := t + 719468 in
  let era := z / 146097 in
  let doe := z - era * 146097 in
  let yoe := (doe - doe / 1460 + doe / 36524 - doe / 146096) / 365 in
  let doy := doe - (365 * yoe + yoe / 4 - yoe / 100) in
  let mp := (5 * doy + 2) / 153 in
  let d := doy - (153 * mp + 2) / 5 + 1 in
  let m := if mp <? 10 then mp + 3 else mp - 9 in
  mkDate (if m <=? 2 then yoe + era * 400 + 1 else yoe + era * 400) m d.

(** [date.dayofweek]: Monday is 0; 1970-01-01 was a Thursday. *)
Definition dayofweek (t : Timestamp) : Z := (t + 3) mod 7.

Definition digit (c : ascii) : option Z :=
  let n := Z.of_nat (nat_of_ascii c) in
  if (48 <=? n) && (n <=? 57) then Some (n - 48) else None.

Fixpoint number (cs : list ascii) (acc : Z) : option Z :=
  match cs with
  | [] => Some acc
  | c :: rest =>
      match digit c with
      | Some n => number rest (10 * acc + n)
      | None => None
      end
  end.

(** A date string in [YYYY-MM-DD] format, as the docstring requires. *)
Definition parse_date (s : string) : option date :=
  match list_ascii_of_string s with
  | [y1; y2; y3; y4; s1; m1; m2; s2; d1; d2] =>
      if Ascii.eqb s1 "-" && Ascii.eqb s2 "-" then
        match number [y1; y2; y3; y4] 0, number [m1; m2] 0, number [d1; d2] 0 with
        | Some y, Some m, Some d => Some (mkDate y m d)
        | _, _, _ => None
        end
      else None
  | _ => None
  end.

Definition to_datetime (s : string) : result Timestamp :=
  match parse_date s with
  | Some d =>
      if valid_date d && in_bounds (days_from_civil d)
      then Returned (days_from_civil d)
      else Raised (ValueError s)
  | None => Raised (ValueError s)
  end.

(** [pd.date_range(start=..., end=..., freq='D')] *)
Definition date_range (start_ts end_ts : Timestamp) : list Timestamp :=
  map (fun j => start_ts + Z.of_nat j) (seq 0 (Z.to_nat (end_ts - start_ts + 1))).

(** [date.strftime('%B')] *)
Definition month_name (m : Z) : string :=
  nth (Z.to_nat (m - 1))
    ["January"; "February"; "March"; "April"; "May"; "June"; "July";
     "August"; "September"; "October"; "November"; "December"]%string
    ""%string.

Record DateRow : Type := mkDateRow {
  Date_ID : Z;
  Full_Date : date;
  Day : Z;
  Month : Z;
  Month_Name : string;
  Quarter : string;
  Year : Z;
  Weekday_Weekend : string;
  Season : string
}.

Definition isin (x : Z) (l : list Z) : bool := existsb (Z.eqb x) l.

(** The body of the loop of [generate_date_dimension]. *)
Definition date_row (idx : Z) (date : Timestamp) : DateRow :=
  let month := month (civil_from_days date) in
  let season :=
    if isin month [12; 1; 2] then "Winter"
    else if isin month [3; 4; 5] then "Spring"
    else if isin month [6; 7; 8] then "Summer"
    else "Fall" in
  let weekday_weekend := if 5 <=? dayofweek date then "Weekend" else "Weekday" in
  mkDateRow idx (civil_from_days date) (day (civil_from_days date)) month
    (month_name month)
    ("Q" ++ pretty ((month - 1) / 3 + 1))
    (year (civil_from_days date)) weekday_weekend season.

(** [for idx, date in enumerate(date_range, start=idx)]. *)
Fixpoint date_data (idx : Z) (dates : list Timestamp) : list DateRow :=
  match dates with
  | [] => []
  | date :: rest => date_row idx date :: date_data (idx + 1) rest
  end.

Definition date_dimension (start_ts end_ts : Timestamp) : list DateRow :=
  date_data 1 (date_range start_ts end_ts).

Definition generate_date_dimension (start_date end_date : string)
    : result (list DateRow) :=
  match to_datetime start_date, to_datetime end_date with
  | Returned s, Returned e => Returned (date_dimension s e)
  | Raised x, _ => Raised x
  | _, Raised x => Raised x
  end.

End DataTransformer.

(** ** class MultithreadedLoader *)

Module MultithreadedLoader.

Record db_config : Type := mkConfig {
  host : string;
  user : string;
  password : string;
  database : string
}.

(** Calls into the MySQL driver. *)
Inductive call : Type :=
| Connect (cfg : db_config)
| Cursor
| Executemany (sql : string) (data_tuples : list (list value))
| Commit
| CursorClose
| ConnClose.

(** The calls a worker has completed so far, oldest first. *)
Definition trace : Type := list call.

(** The store as a worker sees it: whether a call raises, given the
    calls completed before it, and what [cursor.rowcount] reads. *)
Record driver : Type := mkDriver {
  fails : trace -> call -> option string;
  rowcount : trace -> Z
}.

(** Computations that call the driver and may raise. *)
Definition M (A : Type) : Type := trace -> result A * trace.

Definition ret {A : Type} (a : A) : M A := fun t => (Returned a, t).

Definition raise {A : Type} (e : exn) : M A := fun t => (Raised e, t).

Definition bindM {A B : Type} (m : M A) (k : A -> M B) : M B :=
  fun t =>
    match m t with
    | (Returned a, t') => k a t'
    | (Raised e, t') => (Raised e, t')
    end.

(** [try: body  except Exception as e: handler(e)] *)
Definition try_except {A : Type} (body : M A) (handler : exn -> M A) : M A :=
  fun t =>
    match body t with
    | (Returned a, t') => (Returned a, t')
    | (Raised e, t') => handler e t'
    end.

Definition invoke (drv : driver) (c : call) : M unit :=
  fun t =>
    match fails drv t c with
    | Some msg => (Raised (DriverError msg), t)
    | None => (Returned tt, t ++ [c])
    end.

Definition read_rowcount (drv : driver) : M Z :=
  fun t => (Returned (rowcount drv t), t).

Declare Scope loader_scope.
Delimit Scope loader_scope with loader.
Notation "x <- m ;; k" := (bindM m (fun x => k))
  (at level 100, m at next level, right associativity) : loader_scope.
Notation "m ;; k" := (bindM m (fun _ => k))
  (at level 100, right associativity) : loader_scope.

Local Open Scope loader_scope.
Local Open Scope string_scope.

Record LoadResult : Type := mkLoadResult {
  thread_id : nat;
  table : string;
  rows_loaded : Z;
  status : string;
  error : option string
}.

Definition sql_customer : string :=
  "INSERT INTO Customer_Dim (Customer_ID, Gender, Age_Range, Occupation, City_Category, Stay_In_Current_City_Years, Marital_Status) VALUES (%s, %s, %s, %s, %s, %s, %s) ON DUPLICATE KEY UPDATE Gender=VALUES(Gender), Age_Range=VALUES(Age_Range), Occupation=VALUES(Occupation), City_Category=VALUES(City_Category), Stay_In_Current_City_Years=VALUES(Stay_In_Current_City_Years), Marital_Status=VALUES(Marital_Status)".

Definition sql_store : string :=
  "INSERT INTO Store_Dim (Store_ID, Store_Name) VALUES (%s, %s) ON DUPLICATE KEY UPDATE Store_Name=VALUES(Store_Name)".

Definition sql_supplier : string :=
  "INSERT INTO Supplier_Dim (Supplier_ID, Supplier_Name) VALUES (%s, %s) ON DUPLICATE KEY UPDATE Supplier_Name=VALUES(Supplier_Name)".

Definition sql_product : string :=
  "INSERT INTO Product_Dim (Product_ID, Product_Category, Price, Store_ID, Supplier_ID) VALUES (%s, %s, %s, %s, %s) ON DUPLICATE KEY UPDATE Product_Category=VALUES(Product_Category), Price=VALUES(Price), Store_ID=VALUES(Store_ID), Supplier_ID=VALUES(Supplier_ID)".

Definition sql_date : string :=
  "INSERT INTO Date_Dim (Date_ID, Full_Date, Day, Month, Month_Name, Quarter, Year, Weekday_Weekend, Season) VALUES (%s, %s, %s, %s, %s, %s, %s, %s, %s) ON DUPLICATE KEY UPDATE Date_ID=Date_ID".

Definition sql_fact : string :=
  "INSERT INTO Sales_Fact (OrderID, Customer_ID, Product_ID, Store_ID, Supplier_ID, Date_ID, Quantity, Total_Amount, Revenue) VALUES (%s, %s, %s, %s, %s, %s, %s, %s, %s)".

(** The [if]/[elif] chain on [table_name]: the statement and the
    tuples it binds, or nothing when no branch is taken. *)
Definition prepare (table_name : string) (data_batch : DataFrame)
    : option (string * list (list value)) :=
  if String.eqb table_name "Customer_Dim" then Some (sql_customer, data data_batch)
  else if String.eqb table_name "Store_Dim" then Some (sql_store, data data_batch)
  else if String.eqb table_name "Supplier_Dim" then Some (sql_supplier, data data_batch)
  else if String.eqb table_name "Product_Dim" then Some (sql_product, data data_batch)
  else if String.eqb table_name "Date_Dim" then Some (sql_date, data data_batch)
  else None.

Definition failed_result (thread_id : nat) (table_name : string) (e : exn)
    : LoadResult :=
  mkLoadResult thread_id table_name 0 "failed" (Some (str e)).

Definition load_dimension_batch (drv : driver) (cfg : db_config)
    (table_name : string) (data_batch : DataFrame) (thread_id : nat)
    : M LoadResult :=
  try_except
    (invoke drv (Connect cfg) ;;
     invoke drv Cursor ;;
     match prepare table_name data_batch with
     | None => raise (UnboundLocalError "sql")
     | Some (sql, data_tuples) =>
         invoke drv (Executemany sql data_tuples) ;;
         invoke drv Commit ;;
         rows_affected <- read_rowcount drv ;;
         invoke drv CursorClose ;;
         invoke drv ConnClose ;;
         ret (mkLoadResult thread_id table_name rows_affected "success" None)
     end)
    (fun e => ret (failed_result thread_id table_name e)).

Definition load_fact_batch (drv : driver) (cfg : db_config)
    (data_batch : DataFrame) (thread_id : nat) : M LoadResult :=
  try_except
    (invoke drv (Connect cfg) ;;
     invoke drv Cursor ;;
     invoke drv (Executemany sql_fact (data data_batch)) ;;
     invoke drv Commit ;;
     rows_affected <- read_rowcount drv ;;
     invoke drv CursorClose ;;
     invoke drv ConnClose ;;
     ret (mkLoadResult thread_id "Sales_Fact" rows_affected "success" None))
    (fun e => ret (failed_result thread_id "Sales_Fact" e)).

(** Connections a worker opened and has not closed. *)
Fixpoint open_connections (t : trace) : Z :=
  match t with
  | [] => 0
  | Connect _ :: rest => open_connections rest + 1
  | ConnClose :: rest => open_connections rest - 1
  | _ :: rest => open_connections rest
  end.

(** The loader object; [self.lock] is never taken and is left out. *)
Record Loader : Type := mkLoader {
  config : db_config;
  max_workers : Z;
  results : list LoadResult
}.

(** [__init__] *)
Definition init (cfg : db_config) (max_workers : Z) : Loader :=
  mkLoader cfg max_workers [].

(** The batches built on entry to [parallel_load]. *)
Definition batches (data : DataFrame) (batch_size : Z) : result (list DataFrame) :=
  Py.bind (range 0 (len data) batch_size)
    (fun starts => Returned (map (fun i => row_slice data i (i + batch_size)%Z) starts)).

(** The future submitted for batch [idx]: what [future.result()] gives
    and the calls the worker made.  Every worker opens its own
    connection, so it starts from an empty trace. *)
Definition future (drv : nat -> driver) (self : Loader) (table_name : string)
    (idx : nat) (batch : DataFrame) : result LoadResult * trace :=
  if String.eqb table_name "Sales_Fact"
  then load_fact_batch (drv idx) (config self) batch idx []
  else load_dimension_batch (drv idx) (config self) table_name batch idx [].

(** [for future in as_completed(futures): self.results.append(future.result())] *)
Fixpoint collect (futures : list (result LoadResult)) (order : list nat)
    (results : list LoadResult) : result (list LoadResult) :=
  match order with
  | [] => Returned results
  | idx :: rest =>
      match futures !! idx with
      | Some f => Py.bind f (fun r => collect futures rest (results ++ [r]))
      | None => collect futures rest results
      end
  end.

Record Summary : Type := mkSummary {
  total_loaded : Z;
  failed : Z
}.

Definition summarize (rs : list LoadResult) : Summary :=
  mkSummary
    (fold_right Z.add 0%Z (map rows_loaded rs))
    (Z.of_nat (length (List.filter (fun r => String.eqb (status r) "failed") rs))).

(** [parallel_load]: [order] lists the batch indices in the order in
    which [as_completed] hands back their futures.  The result is the
    loader after the call and the totals it logs. *)
Definition parallel_load (drv : nat -> driver) (order : list nat)
    (self : Loader) (table_name : string) (data : DataFrame) (batch_size : Z)
    : result (Loader * Summary) :=
  Py.bind (batches data batch_size)
    (fun bs =>
       let futures := imap (fun idx batch => fst (future drv self table_name idx batch)) bs in
       Py.bind (collect futures order (results self))
         (fun results' =>
            Returned (mkLoader (config self) (max_workers self) results',
                      summarize results'))).

End MultithreadedLoader.

Import HybridJoin DataTransformer MultithreadedLoader.

(** * Notions the statements use *)

(** The equality predicate on one key, [lambda l, r: l[k] == r[k]]: what
    a caller passes to [nested_loop_join] for an equality join. *)
Definition key_equal (k : string) (l r : Series) : result bool :=
  Py.bind (getitem l k)
    (fun a => Py.bind (getitem r k) (fun b => Returned (bool_decide (a = b)))).

(** [row[k]] is defined. *)
Definition has_key (k : string) (row : Series) : Prop :=
  ∃ v, getitem row k = Returned v.

(** [row[k] == v] *)
Definition key_is (k : string) (v : value) (row : Series) : bool :=
  match getitem row k with
  | Returned w => bool_decide (w = v)
  | Raised _ => false
  end.

(** What an equality join owes to the pair of a left row and a right
    row: their merge when the keys agree, nothing otherwise. *)
Definition joined_pair (lk rk : string) (l r : Series) : list dict :=
  match getitem l lk, getitem r rk with
  | Returned a, Returned b =>
      if decide (a = b) then [dict_merge (to_dict l) (to_dict r)] else []
  | _, _ => []
  end.

(** The build rows filed under [v]. *)
Definition bucket (m : gmap value (list Series)) (v : value) : list Series :=
  default [] (m !! v).

(** The rows one probe row adds to the result. *)
Definition probe_rows (k : string) (m : gmap value (list Series)) (swap : bool)
    (probe_row : Series) : list dict :=
  match getitem probe_row k with
  | Returned v => map (combine_rows swap probe_row) (bucket m v)
  | Raised _ => []
  end.

(** The rows [hash_join] collects, pair by pair: probe rows outermost,
    so right rows when the left frame is the build side. *)
Definition hash_pairs (lk rk : string) (lefts rights : list Series) : list dict :=
  if (Z.of_nat (length lefts) <=? Z.of_nat (length rights))%Z
  then flat_map (fun r => flat_map (fun l => joined_pair lk rk l r) lefts) rights
  else flat_map (fun l => flat_map (joined_pair lk rk l) rights) lefts.

(** Every collected row comes from a left row and a right row whose
    keys agree. *)
Definition from_pair (lk rk : string) (lefts rights : list Series) (d : dict) : Prop :=
  ∃ l r v, l ∈ lefts ∧ r ∈ rights ∧
           getitem l lk = Returned v ∧ getitem r rk = Returned v ∧
           d = dict_merge (to_dict l) (to_dict r).

(** The left columns, then the right columns the left frame lacks. *)
Definition joined_columns (A B : DataFrame) : list string :=
  columns A ++ filter (λ c, c ∉ columns A) (columns B).

(** How many rows of the frame have key [v]. *)
Definition occurrences (k : string) (v : value) (df : DataFrame) : nat :=
  length (List.filter (key_is k v) (iterrows df)).

(** How many combined rows have key [v]. *)
Definition rows_for (k : string) (v : value) (rows : list dict) : nat :=
  length (List.filter (fun d => bool_decide (dict_get d k = Some v)) rows).

(** The key column read row by row. *)
Definition column_values (k : string) (df : DataFrame) : list (result value) :=
  map (fun row => getitem row k) (iterrows df).

#[global] Instance wf_frame_dec (df : DataFrame) : Decision (wf_frame df).
Proof. unfold wf_frame. apply _. Defined.

(** Sample frames: three left rows and two right rows sharing the
    columns [id] and [tag], and a frame without rows or key column. *)
Definition left_3 : DataFrame :=
  mkDataFrame ["id"; "tag"]%string
    [[VInt 1; VStr "a"]; [VInt 2; VStr "b"]; [VInt 2; VStr "c"]].

Definition right_2 : DataFrame :=
  mkDataFrame ["id"; "tag"; "price"]%string
    [[VInt 2; VStr "x"; VInt 10]; [VInt 3; VStr "y"; VInt 20]].

Definition no_key_empty : DataFrame := mkDataFrame ["name"]%string [].

(** A combined row of [A] and [B] that reads every column the two
    datasets share from the right row. *)
Definition takes_right (A B : DataFrame) (d : dict) : Prop :=
  ∃ l r, l ∈ iterrows A ∧ r ∈ iterrows B ∧
         d = dict_merge (to_dict l) (to_dict r) ∧
         ∀ c, c ∈ columns A → c ∈ columns B →
              ∃ v, getitem r c = Returned v ∧ dict_get d c = Some v.

(** The declared key column is absent from a dataset that has rows. *)
Definition key_missing (A B : DataFrame) (lk rk : string) : Prop :=
  (data A ≠ [] ∧ lk ∉ columns A) ∨ (data B ≠ [] ∧ rk ∉ columns B).

(** Rows [i*size .. (i+1)*size - 1] of a list. *)
Definition chunk {A : Type} (size : nat) (l : list A) (i : nat) : list A :=
  take size (drop (i * size) l).

(** The message of the first call of [steps] that raises, when the calls
    are made in order after the calls of [t]. *)
Fixpoint first_failure (drv : driver) (t : trace) (steps : list call) : option string :=
  match steps with
  | [] => None
  | c :: rest =>
      match fails drv t c with
      | Some msg => Some msg
      | None => first_failure drv (t ++ [c]) rest
      end
  end.

(** The driver calls of a fact batch and of a dimension batch. *)
Definition fact_steps (cfg : db_config) (data_batch : DataFrame) : list call :=
  [Connect cfg; Cursor; Executemany sql_fact (data data_batch); Commit;
   CursorClose; ConnClose].

Definition dimension_steps (cfg : db_config) (table_name : string)
    (data_batch : DataFrame) : list call :=
  match prepare table_name data_batch with
  | Some (sql, data_tuples) =>
      [Connect cfg; Cursor; Executemany sql data_tuples; Commit; CursorClose; ConnClose]
  | None => [Connect cfg; Cursor]
  end.

(** A result as the claim describes the two outcomes. *)
Definition converted (r : LoadResult) : Prop :=
  (status r = "success"%string ∧ error r = None) ∨
  (status r = "failed"%string ∧ rows_loaded r = 0%Z ∧ ∃ detail, error r = Some detail).

(** Sample configuration, stores and batches. *)
Definition cfg0 : db_config := mkConfig "localhost" "root" "secret" "TBWalmart".

(** Rows of the last statement executed. *)
Definition submitted (t : trace) : Z :=
  fold_left
    (fun n c => match c with
                | Executemany _ data_tuples => Z.of_nat (length data_tuples)
                | _ => n
                end) t 0%Z.

(** A store that accepts every call and reports the rows it was sent. *)
Definition healthy : driver := mkDriver (fun _ _ => None) submitted.

(** A store that rejects every statement. *)
Definition rejecting : driver :=
  mkDriver (fun _ c => match c with
                       | Executemany _ _ => Some "Duplicate entry"%string
                       | _ => None
                       end) submitted.

Definition stores_2 : DataFrame :=
  mkDataFrame ["Store_ID"; "Store_Name"]%string
    [[VInt 1; VStr "North"]; [VInt 2; VStr "South"]].

Definition suppliers_1 : DataFrame :=
  mkDataFrame ["Supplier_ID"; "Supplier_Name"]%string [[VInt 7; VStr "Acme"]].




Ltac div_lia := Z.to_euclidean_division_equations; lia.

(** * The rest of the code and the notions its properties use *)

(** The equality predicate on two key columns,
    [lambda l, r: l[lk] == r[rk]]. *)
Definition keys_equal (lk rk : string) (l r : Series) : result bool :=
  Py.bind (getitem l lk)
    (fun a => Py.bind (getitem r rk) (fun b => Returned (bool_decide (a = b)))).

(** The pairs the two loops of [nested_loop_join] visit, in their order. *)
Definition cross (lefts rights : list Series) : list (Series * Series) :=
  flat_map (fun l => map (pair l) rights) lefts.

(** The right rows whose key is the key of the left row [l]. *)
Definition matches_of (lk rk : string) (B : DataFrame) (l : Series) : nat :=
  match getitem l lk with
  | Returned v => occurrences rk v B
  | Raised _ => 0
  end.

(** The predicate visiting a list of pairs in order, as the two loops do. *)
Fixpoint scan (condition_func : Series -> Series -> result bool)
    (pairs : list (Series * Series)) (result_rows : list dict) : result (list dict) :=
  match pairs with
  | [] => Returned result_rows
  | (l, r) :: rest =>
      Py.bind (condition_func l r)
        (fun c => scan condition_func rest
                    (if c : bool
                     then result_rows ++ [dict_merge (to_dict l) (to_dict r)]
                     else result_rows))
  end.

(** The rows a predicate without failures selects, left row by left row. *)
Definition selected (p : Series -> Series -> bool) (lefts rights : list Series)
    : list dict :=
  flat_map
    (fun l => flat_map
                (fun r => if p l r then [dict_merge (to_dict l) (to_dict r)] else [])
                rights)
    lefts.

(** A combined row of [A] and [B] that holds every column of both: the
    right row's value where the right frame has the column, the left
    row's value elsewhere, and nothing else. *)
Definition carries (A B : DataFrame) (d : dict) : Prop :=
  ∃ l r, l ∈ iterrows A ∧ r ∈ iterrows B ∧
         d = dict_merge (to_dict l) (to_dict r) ∧
         keys d = joined_columns A B ∧
         ∀ c v, dict_get d c = Some v ↔
                getitem r c = Returned v ∨
                ((c ∉ columns B) ∧ getitem l c = Returned v).

(** The dimension tables [load_dimension_batch] has a statement for. *)
Definition dimension_tables : list string :=
  ["Customer_Dim"; "Store_Dim"; "Supplier_Dim"; "Product_Dim"; "Date_Dim"]%string.

(** [sum(1 for r in rs if r['status'] == 'failed')] *)
Definition failures (rs : list LoadResult) : Z :=
  Z.of_nat (length (List.filter (fun r => String.eqb (status r) "failed") rs)).


(** ** class DatabaseConnection *)

Module DatabaseConnection.

(** The MySQL server as one client object sees it: the handle the next
    successful [mysql.connector.connect] returns, the handles that are
    connected, and whether the next [connect] is refused.  The driver's
    [close()] and [is_connected()] do not raise. *)
Record server : Type := mkServer {
  next_handle : nat;
  live : gset nat;
  refuses : option string
}.

(** The object: its [self.connection], [None] until the first connect. *)
Record Conn : Type := mkConn {
  settings : db_config;
  connection : option nat
}.

(** [__init__] *)
Definition init (cfg : db_config) : Conn := mkConn cfg None.

(** [self.connection.is_connected()] *)
Definition is_connected (srv : server) (h : nat) : bool := bool_decide (h ∈ live srv).

(** [connect]: the [except Error] branch logs and re-raises. *)
Definition connect (srv : server) (self : Conn) : result nat * server * Conn :=
  match refuses srv with
  | Some msg => (Raised (DriverError msg), srv, self)
  | None =>
      let h := next_handle srv in
      (Returned h,
       mkServer (S h) ({[h]} ∪ live srv) (refuses srv),
       mkConn (settings self) (Some h))
  end.

(** [close] *)
Definition close (srv : server) (self : Conn) : server * Conn :=
  match connection self with
  | Some h =>
      if is_connected srv h
      then (mkServer (next_handle srv) (live srv ∖ {[h]}) (refuses srv), self)
      else (srv, self)
  | None => (srv, self)
  end.

(** [get_connection] *)
Definition get_connection (srv : server) (self : Conn) : result nat * server * Conn :=
  match connection self with
  | Some h => if is_connected srv h then (Returned h, srv, self) else connect srv self
  | None => connect srv self
  end.

End DatabaseConnection.

(** ** class ETLPipeline *)

Module ETLPipeline.

Import DatabaseConnection.

(** [run]: the five steps of the [try] block, which read files and
    frames, are one computation [steps] on the store and on the
    pipeline's connection object; the [except] branch logs and re-raises,
    and the [finally] branch closes the connection. *)
Definition run (steps : server -> Conn -> result unit * server * Conn)
    (srv : server) (db_conn : Conn) : result unit * server * Conn :=
  let '(r, srv', db_conn') := steps srv db_conn in
  let '(srv'', db_conn'') := close srv' db_conn' in
  (r, srv'', db_conn'').

End ETLPipeline.

(** The server has issued every handle that is connected or that the
    object holds. *)
Definition issued (srv : DatabaseConnection.server) (self : DatabaseConnection.Conn)
    : Prop :=
  (∀ h, h ∈ DatabaseConnection.live srv → h < DatabaseConnection.next_handle srv) ∧
  (∀ h, DatabaseConnection.connection self = Some h →
        h < DatabaseConnection.next_handle srv).

(** ** get_database_credentials *)

Module Credentials.

(** [c.isspace()] for a character of code below 256. *)
Definition isspace (c : ascii) : bool :=
  let n := nat_of_ascii c in
  ((9 <=? n)%nat && (n <=? 13)%nat) || ((28 <=? n)%nat && (n <=? 32)%nat) ||
  (n =? 133)%nat || (n =? 160)%nat.

(** [s.lstrip()] *)
Fixpoint lstrip (s : string) : string :=
  match s with
  | EmptyString => EmptyString
  | String c rest => if isspace c then lstrip rest else s
  end.

(** [s.rstrip()] *)
Fixpoint rstrip (s : string) : string :=
  match s with
  | EmptyString => EmptyString
  | String c rest =>
      match rstrip rest with
      | EmptyString => if isspace c then EmptyString else String c EmptyString
      | kept => String c kept
      end
  end.

(** [s.strip()] *)
Definition strip (s : string) : string := rstrip (lstrip s).

(** [s or default] *)
Definition or_default (s default : string) : string :=
  match s with
  | EmptyString => default
  | _ => s
  end.

(** [get_database_credentials], given the four lines the user types at
    the prompts (the password through [getpass]). *)
Definition get_database_credentials (host_line user_line password_line
    database_line : string) : db_config :=
  mkConfig (or_default (strip host_line) "localhost")
           (or_default (strip user_line) "root")
           password_line
           (or_default (strip database_line) "TBWalmart").

End Credentials.

(** Every character is white space. *)
Fixpoint blank (s : string) : bool :=
  match s with
  | EmptyString => true
  | String c rest => Credentials.isspace c && blank rest
  end.

(** The last character is not white space. *)
Fixpoint ends_clean (s : string) : bool :=
  match s with
  | EmptyString => false
  | String c EmptyString => negb (Credentials.isspace c)
  | String c rest => ends_clean rest
  end.

(** Not empty, and neither the first nor the last character is white
    space. *)
Definition trimmed (s : string) : bool :=
  match s with
  | EmptyString => false
  | String c _ => negb (Credentials.isspace c) && ends_clean s
  end.

(** * Dictionaries *)

Lemma filter_ext_elem {A : Type} (P Q : A → Prop)
    `{!∀ x, Decision (P x)} `{!∀ x, Decision (Q x)} (l : list A) :
  (∀ x, x ∈ l → P x ↔ Q x) → filter P l = filter Q l.
Proof.
  induction l as [|x l IH]; intros Hext; [done|].
  rewrite !filter_cons.
  rewrite IH by (intros y Hy; apply Hext; by right).
  destruct (decide (P x)) as [HP|HP], (decide (Q x)) as [HQ|HQ]; try done.
  - exfalso. apply HQ, Hext; [left|done].
  - exfalso. apply HP, Hext; [left|done].
Qed.

Section DictFacts.

Implicit Types (d a b : dict) (k c : string) (v : value).

Lemma eqb_decide k c : String.eqb k c = bool_decide (k = c).
Proof.
  destruct (String.eqb_spec k c) as [->|Hne].
  - by rewrite bool_decide_eq_true_2.
  - by rewrite bool_decide_eq_false_2.
Qed.

Lemma dict_get_set d k v c :
  dict_get (dict_set d k v) c = if decide (k = c) then Some v else dict_get d c.
Proof.
  induction d as [|[k' v'] d IH]; simpl.
  - rewrite eqb_decide. by case_bool_decide; case_decide.
  - rewrite !eqb_decide. case_bool_decide as Hk; simpl.
    + subst k'. rewrite eqb_decide. by case_bool_decide; case_decide.
    + rewrite eqb_decide, IH.
      case_bool_decide; case_decide; congruence.
Qed.

Lemma keys_set d k v :
  keys (dict_set d k v) = if decide (k ∈ keys d) then keys d else keys d ++ [k].
Proof.
  induction d as [|[k' v'] d IH]; cbn [dict_set keys map fst].
  - destruct (decide (k ∈ [])) as [H|H]; [by inversion H | done].
  - rewrite eqb_decide. case_bool_decide as Hk; cbn [keys map fst].
    + subst k'. rewrite decide_True by left. done.
    + unfold keys in IH. rewrite IH.
      destruct (decide (k ∈ map fst d)) as [Hin|Hin].
      * rewrite decide_True by (by right). done.
      * rewrite decide_False; [done|].
        intros [?|?]%elem_of_cons; congruence.
Qed.

Lemma dict_get_None d c : dict_get d c = None ↔ c ∉ keys d.
Proof.
  induction d as [|[k' v'] d IH]; simpl.
  - split; [intros _ H; by inversion H | done].
  - rewrite eqb_decide. case_bool_decide as Hk.
    + subst. split; [done|]. intros H. exfalso. apply H. left.
    + rewrite IH, not_elem_of_cons. split; [intros H; split; [congruence|done]|].
      by intros [_ H].
Qed.

(** Setting the items of a duplicate-free list one after the other. *)
Lemma dict_get_update (items : list (string * value)) d c :
  NoDup (map fst items) →
  dict_get (fold_left (fun d kv => dict_set d (fst kv) (snd kv)) items d) c =
  match dict_get items c with
  | Some v => Some v
  | None => dict_get d c
  end.
Proof.
  revert d. induction items as [|[k v] items IH]; intros d Hnd; simpl; [done|].
  apply NoDup_cons in Hnd as [Hk Hnd].
  rewrite IH by done. rewrite dict_get_set, eqb_decide.
  case_bool_decide; case_decide; try congruence.
  subst. by rewrite (proj2 (dict_get_None items c)).
Qed.

Lemma keys_update (items : list (string * value)) d :
  NoDup (map fst items) →
  keys (fold_left (fun d kv => dict_set d (fst kv) (snd kv)) items d) =
  keys d ++ filter (λ c, c ∉ keys d) (map fst items).
Proof.
  revert d. induction items as [|[k v] items IH]; intros d Hnd; simpl.
  - by rewrite app_nil_r.
  - apply NoDup_cons in Hnd as [Hk Hnd].
    rewrite IH by done. rewrite keys_set, filter_cons. simpl.
    destruct (decide (k ∈ keys d)) as [Hin|Hin].
    + by rewrite decide_False by (intros H; by apply H).
    + rewrite decide_True by done. rewrite <- app_assoc. simpl.
      do 2 f_equal. apply filter_ext_elem. intros c Hc.
      rewrite not_elem_of_app, not_elem_of_cons.
      split; [by intros [H _]|]. intros H. split; [done|].
      split; [|apply not_elem_of_nil]. intros ->. done.
Qed.

Lemma dict_set_fresh d k v : k ∉ keys d → dict_set d k v = d ++ [(k, v)].
Proof.
  induction d as [|[k' v'] d IH]; cbn [dict_set keys map fst app]; [done|].
  intros [Hne Hk]%not_elem_of_cons.
  rewrite eqb_decide, bool_decide_eq_false_2 by congruence.
  f_equal. by apply IH.
Qed.

Lemma to_dict_nodup (row : Series) : NoDup (map fst row) → to_dict row = row.
Proof.
  unfold to_dict.
  enough (H : ∀ d, NoDup (keys d ++ map fst row) →
            fold_left (fun d cv => dict_set d (fst cv) (snd cv)) row d = d ++ row).
  { intros Hnd. apply (H []). done. }
  induction row as [|[k v] row IH]; intros d Hnd; simpl.
  - by rewrite app_nil_r.
  - assert (Hk : k ∉ keys d).
    { apply NoDup_app in Hnd as (_ & Hd & _). intros Hin.
      apply (Hd k Hin). left. }
    rewrite IH.
    + rewrite dict_set_fresh by done. by rewrite <- app_assoc.
    + rewrite keys_set, decide_False by done. by rewrite <- app_assoc.
Qed.

End DictFacts.

(** * The two joins, pair by pair *)

Section JoinFacts.

Implicit Types (k lk rk : string) (row l r : Series) (rows : list Series)
  (m : gmap value (list Series)) (v : value).

Lemma getitem_cases row k :
  has_key k row ∨ getitem row k = Raised (KeyError k).
Proof.
  unfold has_key. induction row as [|[c v] row IH]; simpl; [by right|].
  destruct (String.eqb c k); [left; by exists v | exact IH].
Qed.

Lemma all_have_key_cases rows k :
  Forall (has_key k) rows ∨ ¬ Forall (has_key k) rows.
Proof.
  induction rows as [|row rows [IH|IH]].
  - left. constructor.
  - destruct (getitem_cases row k) as [Hk|Hr].
    + left. by constructor.
    + right. intros [[v Hv] _]%Forall_cons. congruence.
  - right. intros [_ Hall]%Forall_cons. by apply IH.
Qed.

Lemma build_spec rows k m :
  Forall (has_key k) rows →
  ∃ m', build rows k m = Returned m' ∧
        ∀ v, bucket m' v = bucket m v ++ List.filter (key_is k v) rows.
Proof.
  revert m. induction rows as [|row rows IH]; intros m Hall; simpl.
  - exists m. split; [done|]. intros v. by rewrite app_nil_r.
  - apply Forall_cons in Hall as [[kv Hkv] Hall].
    rewrite Hkv. simpl.
    edestruct IH as (m' & -> & Hm'); [exact Hall|].
    exists m'. split; [done|]. intros v. rewrite Hm'.
    unfold key_is at 2. rewrite Hkv. unfold bucket.
    destruct (decide (kv = v)) as [->|Hne].
    + rewrite bool_decide_eq_true_2 by done.
      rewrite lookup_alter_eq.
      destruct (m !! v) as [b|] eqn:Hb; simpl.
      * rewrite Hb. simpl. by rewrite <- app_assoc.
      * by rewrite lookup_insert_eq.
    + rewrite bool_decide_eq_false_2 by done.
      rewrite lookup_alter_ne by done.
      destruct (m !! kv); [done|]. by rewrite lookup_insert_ne.
Qed.

Lemma build_raises rows k m :
  ¬ Forall (has_key k) rows → build rows k m = Raised (KeyError k).
Proof.
  revert m. induction rows as [|row rows IH]; intros m Hnot; simpl.
  - exfalso. apply Hnot. constructor.
  - destruct (getitem_cases row k) as [[kv Hkv]|Hr].
    + rewrite Hkv. simpl. apply IH. intros Hall. apply Hnot.
      constructor; [by exists kv | done].
    + rewrite Hr. done.
Qed.

Lemma probe_inner swap probe_row (bkt : list Series) (acc : list dict) :
  fold_left (fun acc build_row => acc ++ [combine_rows swap probe_row build_row])
    bkt acc = acc ++ map (combine_rows swap probe_row) bkt.
Proof.
  revert acc. induction bkt as [|b bkt IH]; intros acc; simpl.
  - by rewrite app_nil_r.
  - rewrite IH. by rewrite <- app_assoc.
Qed.

Lemma probe_spec rows k m swap (acc : list dict) :
  Forall (has_key k) rows →
  probe rows k m swap acc = Returned (acc ++ flat_map (probe_rows k m swap) rows).
Proof.
  revert acc. induction rows as [|row rows IH]; intros acc Hall; simpl.
  - by rewrite app_nil_r.
  - apply Forall_cons in Hall as [[kv Hkv] Hall].
    unfold probe_rows at 1. rewrite Hkv. simpl.
    rewrite IH by done. unfold bucket.
    destruct (m !! kv) as [b|]; simpl.
    + rewrite probe_inner. by rewrite <- app_assoc.
    + done.
Qed.

Lemma probe_raises rows k m swap (acc : list dict) :
  ¬ Forall (has_key k) rows → probe rows k m swap acc = Raised (KeyError k).
Proof.
  revert acc. induction rows as [|row rows IH]; intros acc Hnot; simpl.
  - exfalso. apply Hnot. constructor.
  - destruct (getitem_cases row k) as [[kv Hkv]|Hr].
    + rewrite Hkv. simpl. apply IH. intros Hall. apply Hnot.
      constructor; [by exists kv | done].
    + rewrite Hr. done.
Qed.

Lemma nested_inner_spec lk rk l rows (acc : list dict) :
  has_key lk l → Forall (has_key rk) rows →
  nested_inner l rows
    (fun a b => Py.bind (getitem a lk)
       (fun x => Py.bind (getitem b rk) (fun y => Returned (bool_decide (x = y)))))
    acc =
  Returned (acc ++ flat_map (joined_pair lk rk l) rows).
Proof.
  intros [a Ha]. revert acc.
  induction rows as [|r rows IH]; intros acc Hall; simpl.
  - by rewrite app_nil_r.
  - apply Forall_cons in Hall as [[b Hb] Hall].
    rewrite Ha, Hb. simpl. rewrite IH by done.
    unfold joined_pair at 2. rewrite Ha, Hb.
    destruct (decide (a = b)) as [->|Hne].
    + rewrite bool_decide_eq_true_2 by done. by rewrite <- app_assoc.
    + rewrite bool_decide_eq_false_2 by done. done.
Qed.

Lemma nested_outer_spec k lefts rights (acc : list dict) :
  Forall (has_key k) lefts → Forall (has_key k) rights →
  nested_outer lefts rights (key_equal k) acc =
  Returned (acc ++ flat_map (fun l => flat_map (joined_pair k k l) rights) lefts).
Proof.
  intros Hl Hr. revert acc.
  induction Hl as [|l lefts Hkl Hl IH]; intros acc; simpl.
  - by rewrite app_nil_r.
  - unfold key_equal at 1.
    rewrite (nested_inner_spec k k l rights acc Hkl Hr). simpl.
    rewrite IH. by rewrite <- app_assoc.
Qed.

(** A bucket read back as the pairs it stands for. *)
Lemma bucket_pairs_left lk rk r v rows :
  getitem r rk = Returned v →
  map (fun l => dict_merge (to_dict l) (to_dict r)) (List.filter (key_is lk v) rows) =
  flat_map (fun l => joined_pair lk rk l r) rows.
Proof.
  intros Hr. induction rows as [|l rows IH]; simpl; [done|].
  unfold key_is at 1, joined_pair at 1. rewrite Hr.
  destruct (getitem l lk) as [a|e]; [|exact IH].
  destruct (decide (a = v)) as [->|Hne].
  - rewrite bool_decide_eq_true_2 by done. simpl. by rewrite IH.
  - rewrite bool_decide_eq_false_2 by done. exact IH.
Qed.

Lemma bucket_pairs_right lk rk l v rows :
  getitem l lk = Returned v →
  map (fun r => dict_merge (to_dict l) (to_dict r)) (List.filter (key_is rk v) rows) =
  flat_map (joined_pair lk rk l) rows.
Proof.
  intros Hl. induction rows as [|r rows IH]; simpl; [done|].
  unfold key_is at 1, joined_pair at 1. rewrite Hl.
  destruct (getitem r rk) as [b|e]; [|exact IH].
  destruct (decide (v = b)) as [->|Hne].
  - rewrite bool_decide_eq_true_2 by done. simpl. by rewrite IH.
  - rewrite bool_decide_eq_false_2 by congruence. exact IH.
Qed.

Lemma flat_map_ext_elem {A B : Type} (f g : A → list B) (xs : list A) :
  (∀ x, x ∈ xs → f x = g x) → flat_map f xs = flat_map g xs.
Proof.
  induction xs as [|x xs IH]; intros Hext; simpl; [done|].
  rewrite (Hext x) by left. rewrite IH; [done|].
  intros y Hy. apply Hext. by right.
Qed.

Lemma hash_join_rows_spec (A B : DataFrame) lk rk (jt : string) :
  Forall (has_key lk) (iterrows A) → Forall (has_key rk) (iterrows B) →
  hash_join_rows A B lk rk jt = Returned (hash_pairs lk rk (iterrows A) (iterrows B)).
Proof.
  intros HA HB. unfold hash_join_rows, hash_pairs, len.
  unfold iterrows at 3 4. rewrite !length_map.
  destruct (Z.of_nat (length (data A)) <=? Z.of_nat (length (data B)))%Z.
  - destruct (build_spec (iterrows A) lk ∅ HA) as (m & -> & Hm). simpl.
    rewrite probe_spec by done. simpl. f_equal.
    apply flat_map_ext_elem. intros r Hr.
    apply (proj1 (Forall_forall _ _) HB) in Hr as [v Hv].
    unfold probe_rows. rewrite Hv, Hm. unfold bucket at 1.
    rewrite lookup_empty. simpl.
    by apply bucket_pairs_left.
  - destruct (build_spec (iterrows B) rk ∅ HB) as (m & -> & Hm). simpl.
    rewrite probe_spec by done. simpl. f_equal.
    apply flat_map_ext_elem. intros l Hl.
    apply (proj1 (Forall_forall _ _) HA) in Hl as [v Hv].
    unfold probe_rows. rewrite Hv, Hm. unfold bucket at 1.
    rewrite lookup_empty. simpl.
    by apply bucket_pairs_right.
Qed.

Lemma hash_join_rows_raises (A B : DataFrame) lk rk (jt : string) :
  ¬ (Forall (has_key lk) (iterrows A) ∧ Forall (has_key rk) (iterrows B)) →
  ∃ k, hash_join_rows A B lk rk jt = Raised (KeyError k).
Proof.
  intros Hnot. unfold hash_join_rows.
  destruct (len A <=? len B)%Z.
  - destruct (all_have_key_cases (iterrows A) lk) as [HA|HA].
    + destruct (build_spec (iterrows A) lk ∅ HA) as (m & -> & Hm). simpl.
      exists rk. apply probe_raises. tauto.
    + exists lk. by rewrite build_raises.
  - destruct (all_have_key_cases (iterrows B) rk) as [HB|HB].
    + destruct (build_spec (iterrows B) rk ∅ HB) as (m & -> & Hm). simpl.
      exists lk. apply probe_raises. tauto.
    + exists rk. by rewrite build_raises.
Qed.

End JoinFacts.

(** * Rows of well-formed frames *)

Section FrameFacts.

Implicit Types (A B : DataFrame) (k c : string) (row l r : Series).

Lemma keys_combine (cols : list string) (cells : list value) :
  length cells = length cols → map fst (combine cols cells) = cols.
Proof.
  revert cells. induction cols as [|c cols IH]; intros [|x cells] Hlen;
    simpl in *; try done.
  f_equal. apply IH. lia.
Qed.

Lemma iterrows_keys A row :
  wf_frame A → row ∈ iterrows A → map fst row = columns A.
Proof.
  intros [_ Hlen] Hin. unfold iterrows in Hin.
  apply list_elem_of_fmap in Hin as (cells & -> & Hcells).
  apply keys_combine.
  by apply (proj1 (Forall_forall _ _) Hlen).
Qed.

Lemma iterrows_to_dict A row :
  wf_frame A → row ∈ iterrows A → to_dict row = row.
Proof.
  intros HA Hin. apply to_dict_nodup.
  rewrite (iterrows_keys A row HA Hin). apply HA.
Qed.

Lemma getitem_dict_get row k :
  getitem row k =
  match dict_get row k with
  | Some v => Returned v
  | None => Raised (KeyError k)
  end.
Proof.
  induction row as [|[c v] row IH]; simpl; [done|].
  by destruct (String.eqb c k).
Qed.

Lemma has_key_iff row k : has_key k row ↔ k ∈ map fst row.
Proof.
  unfold has_key. rewrite getitem_dict_get.
  destruct (dict_get row k) as [v|] eqn:Hg.
  - split; [intros _|by exists v].
    destruct (decide (k ∈ map fst row)) as [|Hn]; [done|].
    apply dict_get_None in Hn. congruence.
  - apply dict_get_None in Hg. split; [by intros [v ?]|done].
Qed.

Lemma all_have_key A k :
  wf_frame A →
  Forall (has_key k) (iterrows A) ↔ data A = [] ∨ k ∈ columns A.
Proof.
  intros HA. split.
  - intros Hall. destruct (data A) as [|cells rest] eqn:Hd; [by left|right].
    assert (Hin : combine (columns A) cells ∈ iterrows A).
    { unfold iterrows. rewrite Hd. left. }
    rewrite <- (iterrows_keys A _ HA Hin). apply has_key_iff.
    by apply (proj1 (Forall_forall _ _) Hall).
  - intros [Hd|Hk].
    + unfold iterrows. rewrite Hd. constructor.
    + apply Forall_forall. intros row Hin. apply has_key_iff.
      by rewrite (iterrows_keys A row HA Hin).
Qed.

(** What a combined row holds, for rows of well-formed frames. *)
Lemma merged_row A B l r :
  wf_frame A → wf_frame B → l ∈ iterrows A → r ∈ iterrows B →
  keys (dict_merge (to_dict l) (to_dict r)) = joined_columns A B ∧
  (∀ c v, getitem r c = Returned v →
          dict_get (dict_merge (to_dict l) (to_dict r)) c = Some v) ∧
  (∀ c v, c ∉ columns B → getitem l c = Returned v →
          dict_get (dict_merge (to_dict l) (to_dict r)) c = Some v).
Proof.
  intros HA HB Hl Hr.
  rewrite (iterrows_to_dict A l HA Hl), (iterrows_to_dict B r HB Hr).
  assert (Hnd : NoDup (map fst r)).
  { rewrite (iterrows_keys B r HB Hr). apply HB. }
  unfold dict_merge. split; [|split].
  - rewrite keys_update by done. unfold joined_columns, keys.
    by rewrite (iterrows_keys A l HA Hl), (iterrows_keys B r HB Hr).
  - intros c v Hg. rewrite dict_get_update by done.
    rewrite getitem_dict_get in Hg.
    destruct (dict_get r c); congruence.
  - intros c v Hc Hg. rewrite dict_get_update by done.
    rewrite <- (iterrows_keys B r HB Hr) in Hc.
    apply dict_get_None in Hc. rewrite Hc.
    rewrite getitem_dict_get in Hg.
    destruct (dict_get l c); congruence.
Qed.

Lemma joined_pair_elem lk rk l r d :
  d ∈ joined_pair lk rk l r →
  ∃ v, getitem l lk = Returned v ∧ getitem r rk = Returned v ∧
       d = dict_merge (to_dict l) (to_dict r).
Proof.
  unfold joined_pair.
  destruct (getitem l lk) as [a|], (getitem r rk) as [b|];
    try (intros H; by inversion H).
  destruct (decide (a = b)) as [->|]; [|intros H; by inversion H].
  intros ->%list_elem_of_singleton. by exists b.
Qed.

Lemma hash_pairs_from_pair lk rk (lefts rights : list Series) d :
  d ∈ hash_pairs lk rk lefts rights → from_pair lk rk lefts rights d.
Proof.
  unfold hash_pairs.
  destruct (Z.of_nat (length lefts) <=? Z.of_nat (length rights))%Z;
    rewrite list_elem_of_In; intros Hin.
  - apply in_flat_map in Hin as (r & Hr & Hin).
    apply in_flat_map in Hin as (l & Hl & Hin).
    apply list_elem_of_In, joined_pair_elem in Hin as (v & ? & ? & ?).
    exists l, r, v. by rewrite !list_elem_of_In.
  - apply in_flat_map in Hin as (l & Hl & Hin).
    apply in_flat_map in Hin as (r & Hr & Hin).
    apply list_elem_of_In, joined_pair_elem in Hin as (v & ? & ? & ?).
    exists l, r, v. by rewrite !list_elem_of_In.
Qed.

Lemma hash_join_rows_returns A B lk rk (jt : string) (rows : list dict) :
  hash_join_rows A B lk rk jt = Returned rows →
  Forall (has_key lk) (iterrows A) ∧ Forall (has_key rk) (iterrows B) ∧
  rows = hash_pairs lk rk (iterrows A) (iterrows B).
Proof.
  intros Hret.
  destruct (all_have_key_cases (iterrows A) lk) as [HA|HA];
    [destruct (all_have_key_cases (iterrows B) rk) as [HB|HB]|].
  - rewrite hash_join_rows_spec in Hret by done.
    split; [done|]. split; [done|]. congruence.
  - destruct (hash_join_rows_raises A B lk rk jt) as [k Hk]; [tauto|congruence].
  - destruct (hash_join_rows_raises A B lk rk jt) as [k Hk]; [tauto|congruence].
Qed.

Lemma flat_map_app_perm {X Y : Type} (f g : X → list Y) (xs : list X) :
  flat_map (fun x => f x ++ g x) xs ≡ₚ flat_map f xs ++ flat_map g xs.
Proof.
  induction xs as [|x xs IH]; simpl; [done|].
  rewrite IH. rewrite <- !app_assoc. apply Permutation_app_head.
  rewrite !app_assoc. apply Permutation_app_tail. apply Permutation_app_comm.
Qed.

Lemma flat_map_nil {X Y : Type} (xs : list X) :
  flat_map (fun _ => @nil Y) xs = [].
Proof. induction xs; simpl; done. Qed.

Lemma flat_map_swap {X Y Z : Type} (f : X → Y → list Z) (xs : list X) (ys : list Y) :
  flat_map (fun x => flat_map (f x) ys) xs ≡ₚ
  flat_map (fun y => flat_map (fun x => f x y) xs) ys.
Proof.
  induction xs as [|x xs IH]; simpl.
  - by rewrite flat_map_nil.
  - rewrite IH. symmetry. apply flat_map_app_perm.
Qed.

Lemma hash_pairs_perm lk rk (lefts rights : list Series) :
  hash_pairs lk rk lefts rights ≡ₚ
  flat_map (fun l => flat_map (joined_pair lk rk l) rights) lefts.
Proof.
  unfold hash_pairs.
  destruct (Z.of_nat (length lefts) <=? Z.of_nat (length rights))%Z; [|done].
  symmetry. apply (flat_map_swap (joined_pair lk rk)).
Qed.

End FrameFacts.

(** * The join claims *)

Section JoinClaims.

Implicit Types (A B : DataFrame) (k lk rk c : string) (l r : Series).

Lemma nested_inner_elem l (rights : list Series) cond (acc rows : list dict) :
  nested_inner l rights cond acc = Returned rows →
  ∀ d, d ∈ rows →
       d ∈ acc ∨ ∃ r, r ∈ rights ∧ d = dict_merge (to_dict l) (to_dict r).
Proof.
  revert acc. induction rights as [|r rights IH]; intros acc Hret d Hd; simpl in Hret.
  - left. congruence.
  - destruct (cond l r) as [b|e]; [|done]. simpl in Hret.
    destruct (IH _ Hret d Hd) as [Hacc|(r' & Hr' & ->)].
    + destruct b; [|by left].
      apply elem_of_app in Hacc as [Hacc| ->%list_elem_of_singleton]; [by left|].
      right. exists r. split; [left|done].
    + right. exists r'. split; [by right|done].
Qed.

Lemma nested_outer_elem (lefts rights : list Series) cond (acc rows : list dict) :
  nested_outer lefts rights cond acc = Returned rows →
  ∀ d, d ∈ rows →
       d ∈ acc ∨ ∃ l r, l ∈ lefts ∧ r ∈ rights ∧
                        d = dict_merge (to_dict l) (to_dict r).
Proof.
  revert acc. induction lefts as [|l lefts IH]; intros acc Hret d Hd; simpl in Hret.
  - left. congruence.
  - destruct (nested_inner l rights cond acc) as [acc'|e] eqn:Hin; [|done].
    simpl in Hret.
    destruct (IH _ Hret d Hd) as [Hacc|(l' & r' & Hl' & Hr' & ->)].
    + destruct (nested_inner_elem _ _ _ _ _ Hin d Hacc) as [?|(r & Hr & ->)];
        [by left|].
      right. exists l, r. split; [left|done].
    + right. exists l', r'. split; [by right|done].
Qed.

Lemma records_columns (cols : list string) (rows : list dict) :
  Forall (fun d => keys d = cols) rows → rows ≠ [] →
  columns (DataFrame_of_records rows) = cols.
Proof. intros Hall Hne. destruct rows as [|d rows]; [done|]. by inversion Hall. Qed.

Lemma records_data (rows : list dict) :
  data (DataFrame_of_records rows) = map (map snd) rows.
Proof. by destruct rows. Qed.

Lemma hash_pairs_keys A B lk rk :
  wf_frame A → wf_frame B →
  Forall (fun d => keys d = joined_columns A B)
    (hash_pairs lk rk (iterrows A) (iterrows B)).
Proof.
  intros HA HB. apply Forall_forall. intros d Hd.
  apply hash_pairs_from_pair in Hd as (l & r & v & Hl & Hr & _ & _ & ->).
  by apply merged_row.
Qed.

(** C1.  For datasets A and B that both carry the key column k, the
    hash join on k = k and the nested-loop join with the equality
    predicate on k both return, and they return the same multiset of
    combined rows: the record lists are permutations of each other, and
    so are the rows of the two result frames, under the same columns. *)
Theorem hash_join_agrees_with_nested_loop A B k (join_type : string) :
  wf_frame A → wf_frame B → k ∈ columns A → k ∈ columns B →
  ∃ hs ns,
    hash_join_rows A B k k join_type = Returned hs ∧
    nested_loop_join_rows A B (key_equal k) = Returned ns ∧
    hs ≡ₚ ns ∧
    hash_join A B k k join_type = Returned (DataFrame_of_records hs) ∧
    nested_loop_join A B (key_equal k) = Returned (DataFrame_of_records ns) ∧
    columns (DataFrame_of_records hs) = columns (DataFrame_of_records ns) ∧
    data (DataFrame_of_records hs) ≡ₚ data (DataFrame_of_records ns).
Proof.
  intros HA HB HkA HkB.
  assert (HallA : Forall (has_key k) (iterrows A)) by (apply all_have_key; auto).
  assert (HallB : Forall (has_key k) (iterrows B)) by (apply all_have_key; auto).
  pose proof (hash_join_rows_spec A B k k join_type HallA HallB) as Hh.
  pose proof (nested_outer_spec k _ _ [] HallA HallB) as Hn. simpl in Hn.
  pose proof (hash_pairs_perm k k (iterrows A) (iterrows B)) as Hperm.
  eexists _, _. split; [exact Hh|]. split; [exact Hn|]. split; [exact Hperm|].
  split; [unfold hash_join; by rewrite Hh|].
  split; [unfold nested_loop_join, nested_loop_join_rows; by rewrite Hn|].
  split.
  - pose proof (hash_pairs_keys A B k k HA HB) as Hkeys.
    destruct (hash_pairs k k (iterrows A) (iterrows B)) as [|d hs] eqn:Hhs.
    + apply Permutation_nil in Hperm. by rewrite Hperm.
    + rewrite (records_columns (joined_columns A B) (d :: hs)) by done.
      symmetry. apply records_columns.
      * by rewrite <- Hperm.
      * intros Hnil. rewrite Hnil in Hperm.
        by apply Permutation_sym, Permutation_nil in Hperm.
  - rewrite !records_data. by apply Permutation_map.
Qed.

Lemma hash_join_agrees_with_nested_loop_witness :
  ∃ hs ns,
    hash_join_rows left_3 right_2 "id" "id" "inner" = Returned hs ∧
    nested_loop_join_rows left_3 right_2 (key_equal "id") = Returned ns ∧
    hs ≡ₚ ns ∧
    hash_join left_3 right_2 "id" "id" "inner" = Returned (DataFrame_of_records hs) ∧
    nested_loop_join left_3 right_2 (key_equal "id") =
      Returned (DataFrame_of_records ns) ∧
    columns (DataFrame_of_records hs) = columns (DataFrame_of_records ns) ∧
    data (DataFrame_of_records hs) ≡ₚ data (DataFrame_of_records ns).
Proof.
  apply (hash_join_agrees_with_nested_loop left_3 right_2 "id" "inner");
    compute_done.
Defined.

Lemma filter_length_perm {X : Type} (p : X → bool) (xs ys : list X) :
  xs ≡ₚ ys → length (List.filter p xs) = length (List.filter p ys).
Proof.
  induction 1 as [|x xs ys _ IH|x y xs|xs ys zs _ IH1 _ IH2]; simpl.
  - done.
  - destruct (p x); simpl; by rewrite IH.
  - by destruct (p x), (p y).
  - by rewrite IH1.
Qed.

Lemma rows_for_flat_map {X : Type} k (v : value) (f : X → list dict) (xs : list X) :
  rows_for k v (flat_map f xs) =
  fold_right Nat.add 0 (map (fun x => rows_for k v (f x)) xs).
Proof.
  unfold rows_for. induction xs as [|x xs IH]; simpl; [done|].
  by rewrite List.filter_app, length_app, IH.
Qed.

Lemma rows_for_pair A B k (v : value) l r :
  wf_frame A → wf_frame B → l ∈ iterrows A → r ∈ iterrows B →
  rows_for k v (joined_pair k k l r) =
  if key_is k v l && key_is k v r then 1 else 0.
Proof.
  intros HA HB Hl Hr. unfold joined_pair, key_is, rows_for.
  destruct (getitem l k) as [a|] eqn:Ha; [|done].
  destruct (getitem r k) as [b|] eqn:Hb; [|by rewrite andb_false_r].
  destruct (decide (a = b)) as [->|Hne]; simpl.
  - destruct (merged_row A B l r HA HB Hl Hr) as (_ & Hright & _).
    rewrite (Hright k b Hb).
    destruct (decide (b = v)) as [->|Hbv].
    + by rewrite !bool_decide_eq_true_2.
    + rewrite !bool_decide_eq_false_2; [done|done|congruence].
  - destruct (decide (a = v)) as [->|Hav].
    + rewrite bool_decide_eq_true_2 by done.
      by rewrite bool_decide_eq_false_2 by congruence.
    + by rewrite bool_decide_eq_false_2 by done.
Qed.

Lemma rows_for_left A B k (v : value) l (rights : list Series) :
  wf_frame A → wf_frame B → l ∈ iterrows A → rights ⊆ iterrows B →
  rows_for k v (flat_map (joined_pair k k l) rights) =
  if key_is k v l then length (List.filter (key_is k v) rights) else 0.
Proof.
  intros HA HB Hl. rewrite rows_for_flat_map.
  induction rights as [|r rights IH]; intros Hsub; simpl.
  - by destruct (key_is k v l).
  - rewrite IH by (intros x Hx; apply Hsub; by right).
    rewrite (rows_for_pair A B) by (try done; apply Hsub; left).
    destruct (key_is k v l), (key_is k v r); simpl; lia.
Qed.

Lemma rows_for_pairs A B k (v : value) (lefts : list Series) :
  wf_frame A → wf_frame B → lefts ⊆ iterrows A →
  rows_for k v (flat_map (fun l => flat_map (joined_pair k k l) (iterrows B)) lefts) =
  length (List.filter (key_is k v) lefts) * occurrences k v B.
Proof.
  intros HA HB. rewrite rows_for_flat_map.
  induction lefts as [|l lefts IH]; intros Hsub; simpl; [done|].
  rewrite IH by (intros x Hx; apply Hsub; by right).
  rewrite (rows_for_left A B) by (try done; apply Hsub; left).
  unfold occurrences. destruct (key_is k v l); simpl; lia.
Qed.

(** C2.  On the key column k of both datasets, the inner hash join
    returns, and for every value v the number of its rows whose key is v
    is the product of the number of left rows and of right rows with
    key v.  When the key column reads 1, 2, 2 on the left and 2, 3 on the
    right, it returns exactly two rows, each pairing a left row of key 2
    with the right row of key 2. *)
Theorem hash_join_cardinality :
  (∀ A B k (join_type : string) (v : value),
     wf_frame A → wf_frame B → k ∈ columns A → k ∈ columns B →
     ∃ rows, hash_join_rows A B k k join_type = Returned rows ∧
             rows_for k v rows = occurrences k v A * occurrences k v B) ∧
  (∀ A B k (join_type : string),
     column_values k A = [Returned (VInt 1); Returned (VInt 2); Returned (VInt 2)] →
     column_values k B = [Returned (VInt 2); Returned (VInt 3)] →
     ∃ rows, hash_join_rows A B k k join_type = Returned rows ∧
             length rows = 2 ∧
             Forall (fun d => ∃ l r, l ∈ iterrows A ∧ r ∈ iterrows B ∧
                                     getitem l k = Returned (VInt 2) ∧
                                     getitem r k = Returned (VInt 2) ∧
                                     d = dict_merge (to_dict l) (to_dict r)) rows).
Proof.
  split.
  - intros A B k join_type v HA HB HkA HkB.
    assert (HallA : Forall (has_key k) (iterrows A)) by (apply all_have_key; auto).
    assert (HallB : Forall (has_key k) (iterrows B)) by (apply all_have_key; auto).
    eexists. split; [by apply hash_join_rows_spec|].
    unfold rows_for.
    rewrite (filter_length_perm _ _ _ (hash_pairs_perm k k (iterrows A) (iterrows B))).
    by apply (rows_for_pairs A B).
  - intros A B k join_type HcA HcB. unfold column_values in *.
    destruct (iterrows A) as [|l1 [|l2 [|l3 [|? ?]]]] eqn:HiA; try done.
    destruct (iterrows B) as [|r1 [|r2 [|? ?]]] eqn:HiB; try done.
    simpl in HcA, HcB.
    injection HcA as Hl1 Hl2 Hl3. injection HcB as Hr1 Hr2.
    assert (HallA : Forall (has_key k) (iterrows A)).
    { rewrite HiA. repeat constructor; eexists; eassumption. }
    assert (HallB : Forall (has_key k) (iterrows B)).
    { rewrite HiB. repeat constructor; eexists; eassumption. }
    eexists. split; [by apply hash_join_rows_spec|].
    rewrite HiA, HiB. unfold hash_pairs, joined_pair. simpl.
    rewrite Hl1, Hl2, Hl3, Hr1, Hr2. simpl.
    split; [done|].
    repeat constructor.
    + exists l2, r1. repeat split; try done; set_solver.
    + exists l3, r1. repeat split; try done; set_solver.
Qed.

Lemma hash_join_cardinality_witness :
  ∃ rows, hash_join_rows left_3 right_2 "id" "id" "inner" = Returned rows ∧
          rows_for "id" (VInt 2) rows =
          occurrences "id" (VInt 2) left_3 * occurrences "id" (VInt 2) right_2.
Proof. apply (proj1 hash_join_cardinality); compute_done. Defined.

(** C6.  Whichever dataset is built and whichever is probed, every
    combined row of the hash join is a left row merged with a right
    row, and its columns are the left dataset's columns followed by the
    right dataset's columns that the left one does not have. *)
Theorem hash_join_left_columns_first A B lk rk (join_type : string)
    (rows : list dict) :
  wf_frame A → wf_frame B →
  hash_join_rows A B lk rk join_type = Returned rows →
  Forall (fun d => ∃ l r, l ∈ iterrows A ∧ r ∈ iterrows B ∧
                          d = dict_merge (to_dict l) (to_dict r) ∧
                          keys d = columns A ++
                                   filter (λ c, c ∉ columns A) (columns B)) rows ∧
  (rows ≠ [] →
   columns (DataFrame_of_records rows) =
   columns A ++ filter (λ c, c ∉ columns A) (columns B)).
Proof.
  intros HA HB Hret.
  apply hash_join_rows_returns in Hret as (_ & _ & ->).
  split.
  - apply Forall_forall. intros d Hd.
    apply hash_pairs_from_pair in Hd as (l & r & v & Hl & Hr & _ & _ & ->).
    exists l, r. repeat split; try done. by apply merged_row.
  - apply records_columns. by apply hash_pairs_keys.
Qed.

Lemma hash_join_left_columns_first_witness :
  ∃ rows, hash_join_rows left_3 right_2 "id" "id" "inner" = Returned rows ∧
          rows ≠ [] ∧
          Forall (fun d => ∃ l r, l ∈ iterrows left_3 ∧ r ∈ iterrows right_2 ∧
                                  d = dict_merge (to_dict l) (to_dict r) ∧
                                  keys d = columns left_3 ++
                                    filter (λ c, c ∉ columns left_3)
                                      (columns right_2)) rows ∧
          (rows ≠ [] →
           columns (DataFrame_of_records rows) =
           columns left_3 ++ filter (λ c, c ∉ columns left_3) (columns right_2)).
Proof.
  eexists. split; [vm_compute; reflexivity|]. split; [done|].
  apply (hash_join_left_columns_first left_3 right_2 "id" "id" "inner");
    compute_done.
Defined.

Lemma merged_takes_right A B l r :
  wf_frame A → wf_frame B → l ∈ iterrows A → r ∈ iterrows B →
  takes_right A B (dict_merge (to_dict l) (to_dict r)).
Proof.
  intros HA HB Hl Hr. exists l, r. repeat split; try done.
  intros c _ Hc.
  assert (Hk : has_key c r).
  { apply has_key_iff. by rewrite (iterrows_keys B r HB Hr). }
  destruct Hk as [v Hv]. exists v. split; [done|].
  destruct (merged_row A B l r HA HB Hl Hr) as (_ & Hright & _).
  by apply Hright.
Qed.

(** C10.  In the hash join and in the nested-loop join alike, every
    combined row is a left row merged with a right row in which each
    column that both datasets have holds the right row's value, whatever
    the left row held there. *)
Theorem joins_read_shared_columns_from_right A B :
  wf_frame A → wf_frame B →
  (∀ lk rk (join_type : string) (rows : list dict),
     hash_join_rows A B lk rk join_type = Returned rows →
     Forall (takes_right A B) rows) ∧
  (∀ condition_func (rows : list dict),
     nested_loop_join_rows A B condition_func = Returned rows →
     Forall (takes_right A B) rows).
Proof.
  intros HA HB. split.
  - intros lk rk join_type rows Hret.
    apply hash_join_rows_returns in Hret as (_ & _ & ->).
    apply Forall_forall. intros d Hd.
    apply hash_pairs_from_pair in Hd as (l & r & v & Hl & Hr & _ & _ & ->).
    by apply merged_takes_right.
  - intros condition_func rows Hret.
    apply Forall_forall. intros d Hd.
    destruct (nested_outer_elem _ _ _ _ _ Hret d Hd) as [Hnil|(l & r & Hl & Hr & ->)].
    + by inversion Hnil.
    + by apply merged_takes_right.
Qed.

Lemma joins_read_shared_columns_from_right_witness :
  (∃ rows, hash_join_rows left_3 right_2 "id" "id" "inner" = Returned rows ∧
           rows ≠ [] ∧ Forall (takes_right left_3 right_2) rows) ∧
  (∃ rows, nested_loop_join_rows left_3 right_2 (key_equal "id") = Returned rows ∧
           rows ≠ [] ∧ Forall (takes_right left_3 right_2) rows).
Proof.
  assert (HA : wf_frame left_3) by compute_done.
  assert (HB : wf_frame right_2) by compute_done.
  split.
  - eexists. split; [vm_compute; reflexivity|]. split; [done|].
    apply (proj1 (joins_read_shared_columns_from_right left_3 right_2 HA HB)
             "id" "id" "inner")%string.
    vm_compute. reflexivity.
  - eexists. split; [vm_compute; reflexivity|]. split; [done|].
    apply (proj2 (joins_read_shared_columns_from_right left_3 right_2 HA HB)
             (key_equal "id")).
    vm_compute. reflexivity.
Defined.

(** C7 as stated fails: the declared key column is absent from the
    left dataset, which has no rows, and the join returns an empty
    frame instead of failing. *)
Lemma empty_side_hides_missing_key :
  ("id" ∉ columns no_key_empty) ∧
  hash_join no_key_empty right_2 "id" "id" "inner" = Returned empty_frame.
Proof. split; [compute_done | vm_compute; reflexivity]. Qed.

Lemma hash_join_of_rows A B lk rk (join_type : string) :
  hash_join A B lk rk join_type =
  Py.bind (hash_join_rows A B lk rk join_type)
    (fun rows => Returned (DataFrame_of_records rows)).
Proof. done. Qed.

(** C7, amended.  When the declared key column is absent from a dataset
    that has at least one row, the hash join raises a KeyError for that
    key and returns nothing.  Otherwise it returns, and when a key
    column is absent from a dataset without rows the result is the
    empty frame. *)
Theorem hash_join_absent_key A B lk rk (join_type : string) :
  wf_frame A → wf_frame B →
  (key_missing A B lk rk →
   ∃ k, (k = lk ∨ k = rk) ∧ hash_join A B lk rk join_type = Raised (KeyError k)) ∧
  (¬ key_missing A B lk rk →
   ∃ df, hash_join A B lk rk join_type = Returned df ∧
         (lk ∉ columns A ∨ rk ∉ columns B → df = empty_frame)).
Proof.
  intros HA HB. rewrite hash_join_of_rows. unfold key_missing. split.
  - intros Hmiss.
    assert (Hnot : ¬ (Forall (has_key lk) (iterrows A) ∧
                      Forall (has_key rk) (iterrows B))).
    { intros [HallA HallB].
      apply (all_have_key A lk HA) in HallA.
      apply (all_have_key B rk HB) in HallB. tauto. }
    unfold hash_join_rows.
    destruct (len A <=? len B)%Z.
    + destruct (all_have_key_cases (iterrows A) lk) as [HallA|HallA].
      * destruct (build_spec (iterrows A) lk ∅ HallA) as (m & -> & _). simpl.
        exists rk. split; [by right|]. rewrite probe_raises; [done|tauto].
      * exists lk. split; [by left|]. by rewrite build_raises.
    + destruct (all_have_key_cases (iterrows B) rk) as [HallB|HallB].
      * destruct (build_spec (iterrows B) rk ∅ HallB) as (m & -> & _). simpl.
        exists lk. split; [by left|]. rewrite probe_raises; [done|tauto].
      * exists rk. split; [by right|]. by rewrite build_raises.
  - intros Hok.
    assert (HdA : data A = [] ∨ lk ∈ columns A).
    { destruct (data A); [by left|]. right.
      destruct (decide (lk ∈ columns A)); [done|]. exfalso. apply Hok. by left. }
    assert (HdB : data B = [] ∨ rk ∈ columns B).
    { destruct (data B); [by left|]. right.
      destruct (decide (rk ∈ columns B)); [done|]. exfalso. apply Hok. by right. }
    rewrite hash_join_rows_spec by (by apply all_have_key).
    eexists. split; [done|]. intros Habs.
    assert (Hempty : iterrows A = [] ∨ iterrows B = []).
    { unfold iterrows. destruct Habs as [Habs|Habs].
      - left. destruct HdA as [->|]; done.
      - right. destruct HdB as [->|]; done. }
    unfold hash_pairs.
    destruct Hempty as [-> | ->]; simpl;
      destruct (_ <=? _)%Z; simpl; rewrite ?flat_map_nil; done.
Qed.

Lemma hash_join_absent_key_witness :
  (∃ k, (k = "sku" ∨ k = "sku") ∧
        hash_join left_3 right_2 "sku" "sku" "inner" = Raised (KeyError k)) ∧
  (∃ df, hash_join no_key_empty right_2 "id" "id" "inner" = Returned df ∧
         (("id" ∉ columns no_key_empty) ∨ ("id" ∉ columns right_2) →
          df = empty_frame)).
Proof.
  split.
  - apply (hash_join_absent_key left_3 right_2 "sku" "sku" "inner");
      [compute_done | compute_done |].
    left. split; [done | compute_done].
  - apply (hash_join_absent_key no_key_empty right_2 "id" "id" "inner");
      [compute_done | compute_done |].
    intros [[Hd _]|[_ Hk]]; [by apply Hd | apply Hk; compute_done].
Defined.

End JoinClaims.

(** * The calendar *)

Section Calendar.

Local Open Scope Z_scope.

Lemma month_range (t : Timestamp) : 1 <= month (civil_from_days t) <= 12.
Proof.
  unfold civil_from_days. cbn [month].
  set (doe := _ - _ * 146097).
  assert (Hdoe : 0 <= doe <= 146096) by (unfold doe; div_lia).
  clearbody doe.
  set (doy := doe - _).
  assert (Hdoy : 0 <= doy <= 365) by (unfold doy; div_lia).
  clearbody doy.
  destruct (_ <? 10) eqn:E; [apply Z.ltb_lt in E|apply Z.ltb_ge in E]; div_lia.
Qed.

Lemma is_leap_spec (y : Z) :
  is_leap y = true ↔ y mod 4 = 0 ∧ (y mod 100 ≠ 0 ∨ y mod 400 = 0).
Proof.
  unfold is_leap.
  by rewrite andb_true_iff, orb_true_iff, negb_true_iff, !Z.eqb_eq, Z.eqb_neq.
Qed.

(** A day given by its era, year of the era, month counted from March
    and day of the month reads back as the same date. *)
Lemma civil_from_era (era yoe mp dd : Z) :
  0 <= yoe <= 399 → 0 <= mp <= 11 → 1 <= dd <= 31 →
  (mp = 11 → dd <= 29) →
  (mp = 11 → dd = 29 → is_leap (yoe + 1) = true) →
  (dd = 31 → (153 * (mp + 1) + 2) / 5 - (153 * mp + 2) / 5 = 31) →
  let doy := (153 * mp + 2) / 5 + dd - 1 in
  let doe := yoe * 365 + yoe / 4 - yoe / 100 + doy in
  let m := if mp <? 10 then mp + 3 else mp - 9 in
  civil_from_days (era * 146097 + doe - 719468) =
  mkDate (if m <=? 2 then yoe + era * 400 + 1 else yoe + era * 400) m dd.
Proof.
  intros Hyoe Hmp Hdd Hfeb Hleap H31 doy doe m.
  assert (Hdoy : 0 <= doy <= 365 ∧ (5 * doy + 2) / 153 = mp ∧
                 doy - (153 * mp + 2) / 5 + 1 = dd) by (unfold doy; div_lia).
  destruct Hdoy as (Hdoy & Hmp' & Hdd').
  assert (H365 : doy = 365 → (yoe + 1) mod 4 = 0 ∧
                 ((yoe + 1) mod 100 ≠ 0 ∨ (yoe + 1) mod 400 = 0)).
  { intros H. apply is_leap_spec, Hleap; unfold doy in H; div_lia. }
  assert (Hy : (doe - doe / 1460 + doe / 36524 - doe / 146096) / 365 = yoe).
  { unfold doe. clearbody doy. clear Hmp' Hdd' Hleap H31 Hfeb m. div_lia. }
  assert (Hdoe : 0 <= doe <= 146096).
  { unfold doe. clearbody doy. clear Hmp' Hdd' Hleap H31 Hfeb m. div_lia. }
  unfold civil_from_days. cbv zeta.
  assert (Hera : (era * 146097 + doe - 719468 + 719468) / 146097 = era)
    by (clearbody doe; div_lia).
  rewrite Hera.
  replace (era * 146097 + doe - 719468 + 719468 - era * 146097) with doe by lia.
  rewrite Hy.
  replace (doe - (365 * yoe + yoe / 4 - yoe / 100)) with doy by (unfold doe; lia).
  rewrite Hmp', Hdd'. done.
Qed.

Lemma civil_from_days_from_civil (d : date) :
  valid_date d = true → civil_from_days (days_from_civil d) = d.
Proof.
  destruct d as [y m dd]. unfold valid_date, days_in_month. cbn [year month day].
  rewrite !andb_true_iff, !Z.leb_le. intros [[[Hm1 Hm12] Hd1] Hdim].
  unfold days_from_civil. cbn [year month day].
  set (y' := if m <=? 2 then y - 1 else y).
  set (mp := if 2 <? m then m - 3 else m + 9).
  assert (Hmp : 0 <= mp <= 11 ∧ m = (if mp <? 10 then mp + 3 else mp - 9)).
  { unfold mp. destruct (2 <? m) eqn:E; [apply Z.ltb_lt in E|apply Z.ltb_ge in E].
    - destruct (m - 3 <? 10) eqn:E'; [apply Z.ltb_lt in E'|apply Z.ltb_ge in E']; lia.
    - destruct (m + 9 <? 10) eqn:E'; [apply Z.ltb_lt in E'|apply Z.ltb_ge in E']; lia. }
  destruct Hmp as [Hmp Hm].
  assert (Hy : y = if m <=? 2 then y' + 1 else y').
  { unfold y'. destruct (m <=? 2); lia. }
  clearbody mp y'.
  rewrite (civil_from_era (y' / 400) (y' - y' / 400 * 400) mp dd).
  - cbv zeta. rewrite <- Hm. f_equal.
    revert Hy. destruct (m <=? 2); lia.
  - div_lia.
  - done.
  - split; [done|].
    destruct (m =? 2); [destruct (is_leap y); lia|].
    destruct (_ || _); lia.
  - intros ->. simpl in Hm. subst m. simpl in Hdim.
    destruct (is_leap y); lia.
  - intros -> ->. simpl in Hm. subst m. simpl in Hdim, Hy.
    destruct (is_leap y) eqn:Hl; [|lia].
    apply is_leap_spec in Hl. apply is_leap_spec.
    clear -Hl Hy. div_lia.
  - intros ->.
    assert (Hcases : mp = 0 ∨ mp = 1 ∨ mp = 2 ∨ mp = 3 ∨ mp = 4 ∨ mp = 5 ∨
                     mp = 6 ∨ mp = 7 ∨ mp = 8 ∨ mp = 9 ∨ mp = 10 ∨ mp = 11) by lia.
    destruct Hcases as [->|[->|[->|[->|[->|[->|[->|[->|[->|[->|[->| ->]]]]]]]]]]];
      simpl in Hm; subst m; simpl in Hdim; try done; try lia.
    destruct (is_leap y); lia.
Qed.

End Calendar.

(** * The date dimension *)

Section DateDimension.

Local Open Scope Z_scope.

Lemma date_range_lookup (s e : Timestamp) (i : nat) (t : Timestamp) :
  date_range s e !! i = Some t ↔ t = s + Z.of_nat i ∧ s + Z.of_nat i <= e.
Proof.
  unfold date_range. rewrite list_lookup_fmap.
  destruct (decide (i < Z.to_nat (e - s + 1))%nat) as [Hlt|Hge].
  - rewrite lookup_seq_lt by done. simpl. split.
    + intros [= <-]. split; [done|lia].
    + intros [-> _]. done.
  - rewrite lookup_seq_ge by lia. simpl. split; [done|]. intros [_ ?]. lia.
Qed.

Lemma date_data_length (idx : Z) (dates : list Timestamp) :
  length (date_data idx dates) = length dates.
Proof.
  revert idx. induction dates as [|t dates IH]; intros idx; simpl; [done|].
  by rewrite IH.
Qed.

Lemma date_data_lookup (idx : Z) (dates : list Timestamp) (i : nat) :
  date_data idx dates !! i = date_row (idx + Z.of_nat i) <$> dates !! i.
Proof.
  revert idx i. induction dates as [|t dates IH]; intros idx [|i]; simpl; try done.
  - by rewrite Z.add_0_r.
  - rewrite IH. do 2 f_equal. lia.
Qed.

Lemma date_dimension_lookup (s e : Timestamp) (i : nat) (row : DateRow) :
  date_dimension s e !! i = Some row ↔
  row = date_row (Z.of_nat i + 1) (s + Z.of_nat i) ∧ s + Z.of_nat i <= e.
Proof.
  unfold date_dimension. rewrite date_data_lookup.
  destruct (date_range s e !! i) as [t|] eqn:Ht; simpl.
  - apply date_range_lookup in Ht as [-> Hle].
    rewrite (Z.add_comm 1). split; [intros [= <-]; done|]. by intros [-> _].
  - split; [done|]. intros [_ Hle].
    assert (Hsome : date_range s e !! i = Some (s + Z.of_nat i))
      by (by apply date_range_lookup).
    unfold Timestamp in *. congruence.
Qed.

Lemma season_of_month (idx : Z) (t : Timestamp) :
  let m := month (civil_from_days t) in
  (Season (date_row idx t) = "Winter"%string ↔ m = 12 ∨ m = 1 ∨ m = 2) ∧
  (Season (date_row idx t) = "Spring"%string ↔ m = 3 ∨ m = 4 ∨ m = 5) ∧
  (Season (date_row idx t) = "Summer"%string ↔ m = 6 ∨ m = 7 ∨ m = 8) ∧
  (Season (date_row idx t) = "Fall"%string ↔ m = 9 ∨ m = 10 ∨ m = 11).
Proof.
  intros m. pose proof (month_range t) as Hm. fold m in Hm.
  unfold date_row. cbn [Season]. fold m. clearbody m.
  assert (Hcases : m = 1 ∨ m = 2 ∨ m = 3 ∨ m = 4 ∨ m = 5 ∨ m = 6 ∨ m = 7 ∨
                   m = 8 ∨ m = 9 ∨ m = 10 ∨ m = 11 ∨ m = 12) by lia.
  destruct Hcases as [->|[->|[->|[->|[->|[->|[->|[->|[->|[->|[->| ->]]]]]]]]]]];
    vm_compute; repeat split; intros; try done; try lia.
Qed.

(** C9.  The date dimension from day s to day e has one row for each
    day of the inclusive range, in order and numbered from 1; the row
    of a day holds that day's calendar date, the season of its month
    and the weekend flag of its day of the week.  When the range is
    given by two valid dates, the first row is the start date and the
    row of the last day is the end date (dates that parse, exist and lie
    in the range of a Timestamp).  From 2024-02-28 to 2024-03-01
    there are three rows, a Wednesday, a Thursday and a Friday, with
    seasons Winter, Winter, Spring. *)
Theorem date_dimension_one_row_per_day :
  (∀ s e : Timestamp,
     length (date_dimension s e) = Z.to_nat (e - s + 1) ∧
     ∀ (i : nat) (row : DateRow),
       date_dimension s e !! i = Some row →
       let t := s + Z.of_nat i in
       let m := month (civil_from_days t) in
       s <= t <= e ∧
       Date_ID row = Z.of_nat i + 1 ∧
       Full_Date row = civil_from_days t ∧
       Month row = m ∧ 1 <= m <= 12 ∧
       (Season row = "Winter"%string ↔ m = 12 ∨ m = 1 ∨ m = 2) ∧
       (Season row = "Spring"%string ↔ m = 3 ∨ m = 4 ∨ m = 5) ∧
       (Season row = "Summer"%string ↔ m = 6 ∨ m = 7 ∨ m = 8) ∧
       (Season row = "Fall"%string ↔ m = 9 ∨ m = 10 ∨ m = 11) ∧
       (Weekday_Weekend row = "Weekend"%string ↔ 5 <= dayofweek t) ∧
       (Weekday_Weekend row = "Weekday"%string ↔ dayofweek t < 5)) ∧
  (∀ (start_date end_date : string) (d1 d2 : date),
     parse_date start_date = Some d1 → parse_date end_date = Some d2 →
     valid_date d1 = true → valid_date d2 = true →
     in_bounds (days_from_civil d1) = true → in_bounds (days_from_civil d2) = true →
     generate_date_dimension start_date end_date =
       Returned (date_dimension (days_from_civil d1) (days_from_civil d2)) ∧
     ∀ (i : nat) (row : DateRow),
       date_dimension (days_from_civil d1) (days_from_civil d2) !! i = Some row →
       (i = 0%nat → Full_Date row = d1) ∧
       (days_from_civil d1 + Z.of_nat i = days_from_civil d2 → Full_Date row = d2)) ∧
  (∃ rows,
     generate_date_dimension "2024-02-28" "2024-03-01" = Returned rows ∧
     map Full_Date rows = [mkDate 2024 2 28; mkDate 2024 2 29; mkDate 2024 3 1] ∧
     map Season rows = ["Winter"; "Winter"; "Spring"]%string ∧
     map Weekday_Weekend rows = ["Weekday"; "Weekday"; "Weekday"]%string ∧
     map (fun row => dayofweek (days_from_civil (Full_Date row))) rows = [2; 3; 4]).
Proof.
  split; [|split].
  - intros s e. split.
    { unfold date_dimension, date_range.
      by rewrite date_data_length, length_map, length_seq. }
    intros i row Hrow t m.
    apply date_dimension_lookup in Hrow as [-> Hle].
    destruct (season_of_month (Z.of_nat i + 1) t) as (Hw & Hsp & Hsu & Hf).
    split; [lia|]. split; [done|]. split; [done|]. split; [done|].
    split; [apply month_range|].
    split; [exact Hw|]. split; [exact Hsp|]. split; [exact Hsu|].
    split; [exact Hf|].
    unfold date_row. cbn [Weekday_Weekend].
    destruct (5 <=? dayofweek (s + Z.of_nat i)) eqn:E;
      [apply Z.leb_le in E|apply Z.leb_gt in E]; fold t in E |- *.
    + split; split; intros; try done; lia.
    + split; split; intros; try done; lia.
  - intros start_date end_date d1 d2 Hp1 Hp2 Hv1 Hv2 Hb1 Hb2. split.
    { unfold generate_date_dimension, to_datetime.
      by rewrite Hp1, Hp2, Hv1, Hv2, Hb1, Hb2. }
    intros i row Hrow. apply date_dimension_lookup in Hrow as [-> Hle].
    unfold date_row. cbn [Full_Date]. split.
    + intros ->. rewrite Z.add_0_r. by apply civil_from_days_from_civil.
    + intros ->. by apply civil_from_days_from_civil.
  - eexists. split; [vm_compute; reflexivity|]. by vm_compute.
Qed.

Lemma date_dimension_one_row_per_day_witness :
  let row := date_row 1 19781 in
  19781 <= 19781 + Z.of_nat 0 <= 19783 ∧
  Date_ID row = Z.of_nat 0 + 1 ∧
  Full_Date row = civil_from_days (19781 + Z.of_nat 0) ∧
  Month row = month (civil_from_days (19781 + Z.of_nat 0)) ∧
  1 <= month (civil_from_days (19781 + Z.of_nat 0)) <= 12 ∧
  (Season row = "Winter"%string ↔
     month (civil_from_days (19781 + Z.of_nat 0)) = 12 ∨
     month (civil_from_days (19781 + Z.of_nat 0)) = 1 ∨
     month (civil_from_days (19781 + Z.of_nat 0)) = 2) ∧
  (Season row = "Spring"%string ↔
     month (civil_from_days (19781 + Z.of_nat 0)) = 3 ∨
     month (civil_from_days (19781 + Z.of_nat 0)) = 4 ∨
     month (civil_from_days (19781 + Z.of_nat 0)) = 5) ∧
  (Season row = "Summer"%string ↔
     month (civil_from_days (19781 + Z.of_nat 0)) = 6 ∨
     month (civil_from_days (19781 + Z.of_nat 0)) = 7 ∨
     month (civil_from_days (19781 + Z.of_nat 0)) = 8) ∧
  (Season row = "Fall"%string ↔
     month (civil_from_days (19781 + Z.of_nat 0)) = 9 ∨
     month (civil_from_days (19781 + Z.of_nat 0)) = 10 ∨
     month (civil_from_days (19781 + Z.of_nat 0)) = 11) ∧
  (Weekday_Weekend row = "Weekend"%string ↔ 5 <= dayofweek (19781 + Z.of_nat 0)) ∧
  (Weekday_Weekend row = "Weekday"%string ↔ dayofweek (19781 + Z.of_nat 0) < 5).
Proof.
  intros row.
  apply (proj2 (proj1 date_dimension_one_row_per_day 19781 19783) 0%nat row).
  vm_compute. reflexivity.
Defined.

End DateDimension.

(** * Batches *)

Section Partition.

Lemma range_step_pos (n s : Z) :
  (0 < s)%Z →
  range 0 n s =
  Returned (map (fun j => (Z.of_nat j * s)%Z)
              (seq 0 (Z.to_nat ((n + s - 1) / s)))).
Proof.
  intros Hs. unfold range.
  rewrite (proj2 (Z.eqb_neq s 0)) by lia.
  rewrite (proj2 (Z.ltb_lt 0 s)) by lia.
  f_equal. destruct (0 <? n)%Z eqn:E;
    [apply Z.ltb_lt in E|apply Z.ltb_ge in E].
  - replace (Z.to_nat ((n - 0 - 1) / s + 1)) with (Z.to_nat ((n + s - 1) / s)).
    + apply map_ext. intros j. lia.
    + f_equal. replace (n + s - 1)%Z with (n - 0 - 1 + 1 * s)%Z by lia.
      rewrite Z.div_add by lia. lia.
  - replace (Z.to_nat ((n + s - 1) / s)) with 0%nat; [done|].
    assert ((n + s - 1) / s <= 0)%Z; [|lia].
    apply Z.lt_succ_r. apply Z.div_lt_upper_bound; lia.
Qed.

Lemma slice_chunk {A : Type} (l : list A) (s : Z) (j : nat) :
  (0 < s)%Z → (Z.of_nat j * s <= Z.of_nat (length l))%Z →
  slice l (Z.of_nat j * s) (Z.of_nat j * s + s) = chunk (Z.to_nat s) l j.
Proof.
  intros Hs Hj. unfold slice, slice_bound, chunk.
  assert (Hjs : (0 <= Z.of_nat j * s)%Z) by nia.
  rewrite (proj2 (Z.ltb_ge (Z.of_nat j * s) 0)) by lia.
  rewrite (proj2 (Z.ltb_ge (Z.of_nat j * s + s) 0)) by lia.
  rewrite (Z.min_l (Z.of_nat j * s)) by lia.
  replace (Z.to_nat (Z.of_nat j * s)) with (j * Z.to_nat s)%nat by nia.
  destruct (decide (Z.of_nat j * s + s <= Z.of_nat (length l))%Z) as [Hle|Hgt].
  - rewrite Z.min_l by lia. f_equal. lia.
  - rewrite Z.min_r by lia.
    rewrite !firstn_all2; [done| |]; rewrite length_skipn; lia.
Qed.

Lemma chunks_concat {A : Type} (size count : nat) (l : list A) :
  (length l <= count * size)%nat →
  concat (map (chunk size l) (seq 0 count)) = l.
Proof.
  revert l. induction count as [|count IH]; intros l Hlen; simpl.
  - destruct l; [done|simpl in Hlen; lia].
  - rewrite <- seq_shift, map_map.
    transitivity (take size l ++ drop size l); [|apply take_drop].
    f_equal.
    rewrite <- (IH (drop size l)) by (rewrite length_drop; lia).
    f_equal. apply map_ext. intros i. unfold chunk.
    rewrite drop_drop. repeat f_equal; lia.
Qed.

Lemma chunk_lookup {A : Type} (size : nat) (l : list A) (i j : nat) :
  chunk size l i !! j =
  if decide (j < size)%nat then l !! (i * size + j)%nat else None.
Proof.
  unfold chunk. destruct (decide (j < size)%nat) as [Hlt|Hge].
  - rewrite lookup_take_lt by done. by rewrite lookup_drop.
  - by rewrite lookup_take_ge by lia.
Qed.

Lemma batches_chunks (df : DataFrame) (s : Z) :
  (0 < s)%Z →
  batches df s =
  Returned (map (fun i => mkDataFrame (columns df) (chunk (Z.to_nat s) (data df) i))
              (seq 0 (Z.to_nat ((len df + s - 1) / s)))).
Proof.
  intros Hs. unfold batches. rewrite range_step_pos by done. simpl.
  rewrite map_map. f_equal. apply map_ext_in. intros j Hj.
  apply in_seq in Hj. unfold row_slice. f_equal.
  apply slice_chunk; [done|]. unfold len in *.
  destruct Hj as [_ Hj]. simpl in Hj.
  set (q := ((Z.of_nat (length (data df)) + s - 1) / s)%Z) in *.
  assert (Hq : (q * s <= Z.of_nat (length (data df)) + s - 1)%Z).
  { unfold q. rewrite Z.mul_comm. apply Z.mul_div_le. lia. }
  nia.
Qed.


(** C8.  For a positive batch size s, the batches of a dataset are
    ceil(n / s) frames with the dataset's columns; batch i holds the
    rows of index i*s to (i+1)*s - 1 in their order (those that exist),
    every batch before the last has exactly s rows and the last has
    between 1 and s, the batches put end to end are the dataset, and a
    dataset without rows has no batches. *)
Theorem batches_partition (df : DataFrame) (batch_size : Z) :
  (0 < batch_size)%Z →
  ∃ bs,
    batches df batch_size = Returned bs ∧
    length bs = Z.to_nat ((len df + batch_size - 1) / batch_size) ∧
    (∀ (i : nat) (b : DataFrame),
       bs !! i = Some b →
       columns b = columns df ∧
       (∀ j : nat, data b !! j =
                   if decide (j < Z.to_nat batch_size)%nat
                   then data df !! (i * Z.to_nat batch_size + j)%nat
                   else None) ∧
       (0 < len b <= batch_size)%Z ∧
       (S i < length bs → len b = batch_size)%nat) ∧
    concat (map data bs) = data df ∧
    (data df = [] → bs = []).
Proof.
  intros Hs. eexists. split; [by apply batches_chunks|].
  set (count := Z.to_nat ((len df + batch_size - 1) / batch_size)).
  set (size := Z.to_nat batch_size).
  assert (Hcount : (length (data df) <= count * size
                    ∧ (count - 1) * size < length (data df) + (1 - count))%nat).
  { unfold count, size, len. split.
    - assert (Z.of_nat (length (data df)) <=
              ((Z.of_nat (length (data df)) + batch_size - 1) / batch_size) * batch_size)%Z
        by div_lia.
      nia.
    - assert (0 <= (Z.of_nat (length (data df)) + batch_size - 1) / batch_size)%Z
        by div_lia.
      assert ((((Z.of_nat (length (data df)) + batch_size - 1) / batch_size) - 1)
                * batch_size < Z.of_nat (length (data df)) \/
              (Z.of_nat (length (data df)) + batch_size - 1) / batch_size = 0)%Z
        by div_lia.
      nia. }
  rewrite length_map, length_seq. split; [done|]. split; [|split].
  - intros i b Hb. rewrite list_lookup_fmap in Hb.
    destruct (seq 0 count !! i) as [i'|] eqn:Hi; [|done].
    apply lookup_seq in Hi as [-> Hi]. simpl in Hb. injection Hb as <-.
    cbn [columns data]. split; [done|]. split; [intros j; apply chunk_lookup|].
    unfold len. cbn [data]. unfold chunk.
    rewrite length_take, length_drop. fold size. split; [nia|]. nia.
  - rewrite map_map. cbn [data]. apply chunks_concat. lia.
  - intros Hnil.
    assert (Hzero : count = 0%nat).
    { unfold count, len. rewrite Hnil. simpl length.
      rewrite Z.div_small; lia. }
    by rewrite Hzero.
Qed.

Lemma batches_partition_witness :
  ∃ bs, batches left_3 2 = Returned bs ∧
        length bs = 2%nat ∧
        concat (map data bs) = data left_3.
Proof.
  destruct (batches_partition left_3 2) as (bs & Hbs & Hlen & _ & Hcat & _);
    [lia|].
  exists bs. split; [exact Hbs|]. split; [exact Hlen|exact Hcat].
Defined.

End Partition.

(** * The batch loaders *)

Section Loader.

Implicit Types (drv : driver) (cfg : db_config) (t : trace).

Ltac run_steps :=
  unfold load_fact_batch, load_dimension_batch, fact_steps, dimension_steps,
    try_except, bindM, invoke, read_rowcount, ret, raise, failed_result;
  cbn [first_failure];
  repeat match goal with
    | |- context [fails ?d ?t ?c] =>
        let E := fresh "E" in destruct (fails d t c) eqn:E; cbn [first_failure str]
    end.

Lemma load_fact_batch_outcome drv cfg (data_batch : DataFrame) (thread_id : nat) t :
  match first_failure drv t (fact_steps cfg data_batch) with
  | Some msg =>
      ∃ t', load_fact_batch drv cfg data_batch thread_id t =
            (Returned (mkLoadResult thread_id "Sales_Fact" 0 "failed" (Some msg)), t')
  | None =>
      ∃ n, load_fact_batch drv cfg data_batch thread_id t =
           (Returned (mkLoadResult thread_id "Sales_Fact" n "success" None),
            t ++ fact_steps cfg data_batch)
  end.
Proof.
  run_steps; try (eexists; reflexivity).
  eexists. by rewrite <- !app_assoc.
Qed.

Lemma load_dimension_batch_outcome drv cfg (table_name : string)
    (data_batch : DataFrame) (thread_id : nat) t :
  match first_failure drv t (dimension_steps cfg table_name data_batch) with
  | Some msg =>
      ∃ t', load_dimension_batch drv cfg table_name data_batch thread_id t =
            (Returned (mkLoadResult thread_id table_name 0 "failed" (Some msg)), t')
  | None =>
      match prepare table_name data_batch with
      | Some _ =>
          ∃ n, load_dimension_batch drv cfg table_name data_batch thread_id t =
               (Returned (mkLoadResult thread_id table_name n "success" None),
                t ++ dimension_steps cfg table_name data_batch)
      | None =>
          load_dimension_batch drv cfg table_name data_batch thread_id t =
          (Returned (mkLoadResult thread_id table_name 0 "failed" (Some "sql")),
           t ++ [Connect cfg; Cursor])
      end
  end.
Proof.
  unfold dimension_steps, load_dimension_batch.
  destruct (prepare table_name data_batch) as [[sql data_tuples]|];
    run_steps; try (eexists; reflexivity); try by rewrite <- !app_assoc.
  eexists. by rewrite <- !app_assoc.
Qed.

(** C3.  Neither loader raises: each returns a LoadResult.  When a
    driver call of the batch fails (connect, cursor, statement, commit
    or a close), the result has status failed, zero rows loaded and the
    failure's message as error detail; when no call fails, the result
    has status success (for a dimension table, one that the loader
    knows). *)
Theorem load_batch_converts_failures drv cfg (table_name : string)
    (data_batch : DataFrame) (thread_id : nat) t :
  (∃ r t', load_dimension_batch drv cfg table_name data_batch thread_id t =
           (Returned r, t') ∧ converted r) ∧
  (∃ r t', load_fact_batch drv cfg data_batch thread_id t =
           (Returned r, t') ∧ converted r) ∧
  (∀ msg, first_failure drv t (dimension_steps cfg table_name data_batch) = Some msg →
          ∃ t', load_dimension_batch drv cfg table_name data_batch thread_id t =
                (Returned (mkLoadResult thread_id table_name 0 "failed" (Some msg)), t')) ∧
  (∀ msg, first_failure drv t (fact_steps cfg data_batch) = Some msg →
          ∃ t', load_fact_batch drv cfg data_batch thread_id t =
                (Returned (mkLoadResult thread_id "Sales_Fact" 0 "failed" (Some msg)), t')) ∧
  (first_failure drv t (dimension_steps cfg table_name data_batch) = None →
   is_Some (prepare table_name data_batch) →
   ∃ n, load_dimension_batch drv cfg table_name data_batch thread_id t =
        (Returned (mkLoadResult thread_id table_name n "success" None),
         t ++ dimension_steps cfg table_name data_batch)) ∧
  (first_failure drv t (fact_steps cfg data_batch) = None →
   ∃ n, load_fact_batch drv cfg data_batch thread_id t =
        (Returned (mkLoadResult thread_id "Sales_Fact" n "success" None),
         t ++ fact_steps cfg data_batch)).
Proof.
  pose proof (load_fact_batch_outcome drv cfg data_batch thread_id t) as Hf.
  pose proof (load_dimension_batch_outcome drv cfg table_name data_batch thread_id t)
    as Hd.
  repeat split.
  - destruct (first_failure drv t (dimension_steps _ _ _)) as [msg|].
    + destruct Hd as [t' ->]. eexists _, _. split; [done|].
      right. cbn. eauto.
    + destruct (prepare table_name data_batch).
      * destruct Hd as [n ->]. eexists _, _. split; [done|]. by left.
      * rewrite Hd. eexists _, _. split; [done|]. right. cbn. eauto.
  - destruct (first_failure drv t (fact_steps _ _)) as [msg|].
    + destruct Hf as [t' ->]. eexists _, _. split; [done|]. right. cbn. eauto.
    + destruct Hf as [n ->]. eexists _, _. split; [done|]. by left.
  - intros msg Hmsg. by rewrite Hmsg in Hd.
  - intros msg Hmsg. by rewrite Hmsg in Hf.
  - intros Hnone [p Hp]. by rewrite Hnone, Hp in Hd.
  - intros Hnone. by rewrite Hnone in Hf.
Qed.

Lemma load_batch_converts_failures_witness :
  (∃ t', load_dimension_batch rejecting cfg0 "Store_Dim" stores_2 0 [] =
         (Returned (mkLoadResult 0 "Store_Dim" 0 "failed" (Some "Duplicate entry")), t')) ∧
  (∃ n, load_fact_batch healthy cfg0 stores_2 0 [] =
        (Returned (mkLoadResult 0 "Sales_Fact" n "success" None),
         [] ++ fact_steps cfg0 stores_2)).
Proof.
  split.
  - apply (load_batch_converts_failures rejecting cfg0 "Store_Dim" stores_2 0 []).
    reflexivity.
  - apply (load_batch_converts_failures healthy cfg0 "Store_Dim" stores_2 0 []).
    reflexivity.
Defined.

(** C4 fails on the code: when the statement is rejected after the
    connection was opened, both loaders return their failed result
    without ever calling [close], and the connection stays open. *)
Theorem failed_load_leaves_connection_open :
  load_dimension_batch rejecting cfg0 "Store_Dim" stores_2 0 [] =
    (Returned (mkLoadResult 0 "Store_Dim" 0 "failed" (Some "Duplicate entry")),
     [Connect cfg0; Cursor]) ∧
  load_fact_batch rejecting cfg0 stores_2 0 [] =
    (Returned (mkLoadResult 0 "Sales_Fact" 0 "failed" (Some "Duplicate entry")),
     [Connect cfg0; Cursor]) ∧
  open_connections [Connect cfg0; Cursor] = 1%Z ∧
  ConnClose ∉ [Connect cfg0; Cursor].
Proof.
  split; [reflexivity|]. split; [reflexivity|]. split; [reflexivity|].
  intros H. repeat (apply elem_of_cons in H as [H|H]; [discriminate|]).
  by inversion H.
Qed.

End Loader.

(** * parallel_load *)

Section ParallelLoad.

Implicit Types (drv : driver) (cfg : db_config) (t : trace).

Lemma open_connections_app t1 t2 :
  open_connections (t1 ++ t2) = (open_connections t1 + open_connections t2)%Z.
Proof.
  induction t1 as [|c t1 IH]; simpl; [done|].
  destruct c; rewrite ?IH; lia.
Qed.

(** Once connected, a batch that fails leaves one more connection open
    than it found. *)
Lemma load_fact_batch_leaks drv cfg (data_batch : DataFrame) (thread_id : nat) t msg :
  fails drv t (Connect cfg) = None →
  first_failure drv t (fact_steps cfg data_batch) = Some msg →
  ∃ r t', load_fact_batch drv cfg data_batch thread_id t = (Returned r, t') ∧
          status r = "failed"%string ∧
          open_connections t' = (open_connections t + 1)%Z.
Proof.
  intros Hc. unfold load_fact_batch, fact_steps, try_except, bindM, invoke,
    read_rowcount, ret, failed_result.
  cbn [first_failure]. rewrite Hc.
  repeat match goal with
    | |- context [fails ?d ?t ?c] =>
        let E := fresh "E" in destruct (fails d t c) eqn:E; cbn [first_failure]
    end; intros Hmsg; try discriminate;
    eexists _, _; (split; [reflexivity|]); (split; [reflexivity|]);
    rewrite !open_connections_app; simpl; lia.
Qed.

Lemma load_dimension_batch_leaks drv cfg (table_name : string)
    (data_batch : DataFrame) (thread_id : nat) t msg :
  fails drv t (Connect cfg) = None →
  first_failure drv t (dimension_steps cfg table_name data_batch) = Some msg →
  ∃ r t', load_dimension_batch drv cfg table_name data_batch thread_id t =
          (Returned r, t') ∧
          status r = "failed"%string ∧
          open_connections t' = (open_connections t + 1)%Z.
Proof.
  intros Hc. unfold load_dimension_batch, dimension_steps, try_except, bindM,
    invoke, read_rowcount, ret, raise, failed_result.
  destruct (prepare table_name data_batch) as [[sql data_tuples]|];
    cbn [first_failure]; rewrite Hc;
    repeat match goal with
      | |- context [fails ?d ?t ?c] =>
          let E := fresh "E" in destruct (fails d t c) eqn:E; cbn [first_failure]
      end; intros Hmsg; try discriminate;
    eexists _, _; (split; [reflexivity|]); (split; [reflexivity|]);
    rewrite !open_connections_app; simpl; lia.
Qed.









(** C5 fails on the code: a loader that has loaded two stores and then
    loads one supplier, with no failure in either call, reports three
    rows loaded for the one-row supplier dataset. *)
Theorem second_load_reports_earlier_rows :
  ∃ loader1 loader2,
    parallel_load (fun _ => healthy) [0%nat] (init cfg0 4) "Store_Dim" stores_2 50 =
      Returned (loader1, mkSummary 2 0) ∧
    parallel_load (fun _ => healthy) [0%nat] loader1 "Supplier_Dim" suppliers_1 50 =
      Returned (loader2, mkSummary 3 0) ∧
    len suppliers_1 = 1%Z ∧
    Forall (fun r => status r = "success"%string) (results loader2).
Proof.
  eexists _, _. split; [vm_compute; reflexivity|].
  split; [vm_compute; reflexivity|]. split; [reflexivity|].
  repeat constructor.
Qed.

End ParallelLoad.

(** * More on the nested-loop join *)

Section JoinExtras.

Implicit Types (A B : DataFrame) (k lk rk c : string) (l r : Series).

Lemma iterrows_length A : length (iterrows A) = length (data A).
Proof. unfold iterrows. apply length_map. Qed.

Lemma nested_inner_scan l (rights : list Series) cond (acc : list dict) :
  nested_inner l rights cond acc = scan cond (map (pair l) rights) acc.
Proof.
  revert acc. induction rights as [|r rights IH]; intros acc; simpl; [done|].
  destruct (cond l r) as [b|e]; simpl; [apply IH|done].
Qed.

Lemma scan_app cond (ps1 ps2 : list (Series * Series)) (acc : list dict) :
  scan cond (ps1 ++ ps2) acc = Py.bind (scan cond ps1 acc) (scan cond ps2).
Proof.
  revert acc. induction ps1 as [|[l r] ps1 IH]; intros acc; simpl; [done|].
  destruct (cond l r) as [b|e]; simpl; [apply IH|done].
Qed.

Lemma nested_outer_scan (lefts rights : list Series) cond (acc : list dict) :
  nested_outer lefts rights cond acc = scan cond (cross lefts rights) acc.
Proof.
  revert acc. induction lefts as [|l lefts IH]; intros acc; simpl; [done|].
  unfold cross. simpl. rewrite scan_app, nested_inner_scan.
  destruct (scan cond (map (pair l) rights) acc); simpl; [apply IH|done].
Qed.

Lemma scan_returns cond (ps : list (Series * Series)) (acc : list dict) :
  Forall (fun lr => ∃ b, cond lr.1 lr.2 = Returned b) ps →
  ∃ rows, scan cond ps acc = Returned rows.
Proof.
  revert acc. induction ps as [|[l r] ps IH]; intros acc Hall; simpl; [by eexists|].
  apply Forall_cons in Hall as [[b Hb] Hall]. simpl in Hb. rewrite Hb. simpl.
  by apply IH.
Qed.

Lemma scan_total cond (p : Series → Series → bool) (ps : list (Series * Series))
    (acc : list dict) :
  Forall (fun lr => cond lr.1 lr.2 = Returned (p lr.1 lr.2)) ps →
  scan cond ps acc =
  Returned (acc ++ flat_map
                     (fun lr => if p lr.1 lr.2
                                then [dict_merge (to_dict lr.1) (to_dict lr.2)]
                                else []) ps).
Proof.
  revert acc. induction ps as [|[l r] ps IH]; intros acc Hall; simpl.
  - by rewrite app_nil_r.
  - apply Forall_cons in Hall as [Hb Hall]. simpl in Hb. rewrite Hb. simpl.
    rewrite IH by done. destruct (p l r); [by rewrite <- app_assoc|done].
Qed.

Lemma cross_elem (lefts rights : list Series) l r :
  (l, r) ∈ cross lefts rights ↔ l ∈ lefts ∧ r ∈ rights.
Proof.
  unfold cross. rewrite list_elem_of_In, in_flat_map. split.
  - intros (l' & Hl' & Hin). apply in_map_iff in Hin as (r' & [= -> ->] & Hr').
    by rewrite !list_elem_of_In.
  - intros [Hl Hr]. exists l. rewrite <- list_elem_of_In. split; [done|].
    apply in_map. by apply list_elem_of_In.
Qed.

Lemma cross_length (lefts rights : list Series) :
  length (cross lefts rights) = length lefts * length rights.
Proof.
  unfold cross. induction lefts as [|l lefts IH]; simpl; [done|].
  by rewrite length_app, length_map, IH.
Qed.

Lemma selected_cross (p : Series → Series → bool) (lefts rights : list Series) :
  flat_map (fun lr => if p lr.1 lr.2
                      then [dict_merge (to_dict lr.1) (to_dict lr.2)] else [])
    (cross lefts rights) = selected p lefts rights.
Proof.
  unfold cross, selected. induction lefts as [|l lefts IH]; simpl; [done|].
  rewrite flat_map_app, IH. f_equal.
  clear IH. induction rights as [|r rights IHr]; simpl; [done|]. by rewrite IHr.
Qed.

Lemma selected_length (p : Series → Series → bool) (lefts rights : list Series) :
  length (selected p lefts rights) ≤ length lefts * length rights ∧
  ((∀ l r, l ∈ lefts → r ∈ rights → p l r = true) →
   length (selected p lefts rights) = length lefts * length rights).
Proof.
  unfold selected. induction lefts as [|l lefts [IH1 IH2]]; simpl;
    [split; [lia|done]|].
  rewrite length_app.
  assert (Hrow : length (flat_map (fun r => if p l r
                   then [dict_merge (to_dict l) (to_dict r)] else []) rights)
                 ≤ length rights ∧
                 ((∀ r, r ∈ rights → p l r = true) →
                  length (flat_map (fun r => if p l r
                    then [dict_merge (to_dict l) (to_dict r)] else []) rights)
                  = length rights)).
  { clear. induction rights as [|r rights [IH1 IH2]]; simpl;
      [split; [lia|done]|].
    rewrite length_app. split.
    - destruct (p l r); simpl; lia.
    - intros Hall. rewrite (Hall r) by left. simpl. f_equal.
      apply IH2. intros r' Hr'. apply Hall. by right. }
  destruct Hrow as [Hrow1 Hrow2]. split; [lia|].
  intros Hall. rewrite Hrow2, IH2; [done| |].
  - intros l' r' Hl' Hr'. apply Hall; [by right|done].
  - intros r' Hr'. apply Hall; [left|done].
Qed.

(** X1.  With a predicate that never fails, [nested_loop_join] returns the
    merged pairs the predicate accepts, left row by left row and right
    row by right row within; there are at most |left| * |right| of them,
    and exactly that many when the predicate accepts every pair. *)
Theorem nested_loop_join_selects A B (condition_func : Series → Series → result bool)
    (p : Series → Series → bool) :
  (∀ l r, l ∈ iterrows A → r ∈ iterrows B → condition_func l r = Returned (p l r)) →
  nested_loop_join_rows A B condition_func =
    Returned (selected p (iterrows A) (iterrows B)) ∧
  nested_loop_join A B condition_func =
    Returned (DataFrame_of_records (selected p (iterrows A) (iterrows B))) ∧
  (length (selected p (iterrows A) (iterrows B)) ≤
   length (data A) * length (data B))%nat ∧
  ((∀ l r, l ∈ iterrows A → r ∈ iterrows B → p l r = true) →
   length (selected p (iterrows A) (iterrows B)) =
   (length (data A) * length (data B))%nat).
Proof.
  intros Hcond.
  assert (Hrows : nested_loop_join_rows A B condition_func =
                  Returned (selected p (iterrows A) (iterrows B))).
  { unfold nested_loop_join_rows. rewrite nested_outer_scan.
    rewrite (scan_total _ p), selected_cross; [done|].
    apply Forall_forall. intros [l r] [Hl Hr]%cross_elem. by apply Hcond. }
  split; [done|]. split; [unfold nested_loop_join; by rewrite Hrows|].
  pose proof (selected_length p (iterrows A) (iterrows B)) as [Hle Heq].
  rewrite !iterrows_length in Hle. split; [exact Hle|].
  intros Hall. rewrite Heq by done. by rewrite !iterrows_length.
Qed.

Lemma nested_loop_join_selects_witness :
  nested_loop_join_rows left_3 right_2 (fun _ _ => Returned true) =
    Returned (selected (fun _ _ => true) (iterrows left_3) (iterrows right_2)) ∧
  length (selected (fun _ _ => true) (iterrows left_3) (iterrows right_2)) = 6%nat.
Proof.
  destruct (nested_loop_join_selects left_3 right_2 (fun _ _ => Returned true)
              (fun _ _ => true)) as (Hrows & _ & _ & Hlen); [done|].
  split; [exact Hrows|]. by rewrite Hlen.
Defined.

(** X2.  [nested_loop_join] fails exactly as its predicate does: when the
    predicate returns on every pair before (l, r), in the order of the
    two loops, and raises on (l, r), the join raises the same exception
    and no rows are returned; when it returns on every pair the join
    returns; and when either dataset has no rows the predicate is never
    asked and the join returns the empty frame. *)
Theorem nested_loop_join_failure A B (condition_func : Series → Series → result bool) :
  (∀ before l r after e,
     cross (iterrows A) (iterrows B) = before ++ (l, r) :: after →
     Forall (fun lr => ∃ b, condition_func lr.1 lr.2 = Returned b) before →
     condition_func l r = Raised e →
     nested_loop_join A B condition_func = Raised e) ∧
  (Forall (fun lr => ∃ b, condition_func lr.1 lr.2 = Returned b)
     (cross (iterrows A) (iterrows B)) →
   ∃ df, nested_loop_join A B condition_func = Returned df) ∧
  (data A = [] ∨ data B = [] →
   nested_loop_join A B condition_func = Returned empty_frame).
Proof.
  unfold nested_loop_join, nested_loop_join_rows. rewrite nested_outer_scan.
  split; [|split].
  - intros before l r after e -> Hbefore He. rewrite scan_app.
    destruct (scan_returns condition_func before [] Hbefore) as [rows ->].
    simpl. by rewrite He.
  - intros Hall. destruct (scan_returns condition_func _ [] Hall) as [rows ->].
    simpl. by eexists.
  - intros Hempty.
    assert (Hcross : cross (iterrows A) (iterrows B) = []).
    { unfold cross, iterrows. destruct Hempty as [-> | ->]; simpl; [done|].
      induction (data A); simpl; done. }
    by rewrite Hcross.
Qed.

Lemma nested_loop_join_failure_witness :
  nested_loop_join left_3 right_2 (key_equal "sku") = Raised (KeyError "sku") ∧
  nested_loop_join no_key_empty right_2 (key_equal "sku") = Returned empty_frame.
Proof.
  split.
  - apply (proj1 (nested_loop_join_failure left_3 right_2 (key_equal "sku"))
             [] (combine ["id"; "tag"]%string [VInt 1; VStr "a"])
             (combine ["id"; "tag"; "price"]%string [VInt 2; VStr "x"; VInt 10])
             (tl (cross (iterrows left_3) (iterrows right_2)))); [done|done|done].
  - apply (proj2 (proj2 (nested_loop_join_failure no_key_empty right_2
                           (key_equal "sku")))). by left.
Defined.

End JoinExtras.

(** * More on the hash join *)

Section HashJoinExtras.

Implicit Types (A B : DataFrame) (k lk rk c : string) (l r : Series).

Lemma joined_pair_no_key lk rk l (rights : list Series) e :
  getitem l lk = Raised e → flat_map (joined_pair lk rk l) rights = [].
Proof.
  intros Hl. induction rights as [|r rights IH]; simpl; [done|].
  unfold joined_pair at 1. by rewrite Hl.
Qed.

Lemma matches_length lk rk B l :
  length (flat_map (joined_pair lk rk l) (iterrows B)) = matches_of lk rk B l.
Proof.
  unfold matches_of, occurrences.
  destruct (getitem l lk) as [v|e] eqn:Hl.
  - by rewrite <- (bucket_pairs_right lk rk l v _ Hl), length_map.
  - by rewrite (joined_pair_no_key lk rk l _ e Hl).
Qed.

Lemma pairs_length lk rk B (lefts : list Series) :
  length (flat_map (fun l => flat_map (joined_pair lk rk l) (iterrows B)) lefts) =
  fold_right Nat.add 0 (map (matches_of lk rk B) lefts).
Proof.
  induction lefts as [|l lefts IH]; simpl; [done|].
  by rewrite length_app, matches_length, IH.
Qed.

Lemma unique_matches lk rk B (lefts : list Series) :
  (∀ v, occurrences rk v B ≤ 1) →
  fold_right Nat.add 0 (map (matches_of lk rk B) lefts) =
  length (List.filter (fun l => bool_decide (matches_of lk rk B l = 1)) lefts) ∧
  fold_right Nat.add 0 (map (matches_of lk rk B) lefts) ≤ length lefts.
Proof.
  intros Huniq.
  assert (Hone : ∀ l, matches_of lk rk B l ≤ 1).
  { intros l. unfold matches_of. destruct (getitem l lk); [apply Huniq|lia]. }
  induction lefts as [|l lefts [IH1 IH2]]; simpl; [done|].
  specialize (Hone l). rewrite IH1.
  destruct (decide (matches_of lk rk B l = 1)) as [H1|H1].
  - rewrite bool_decide_eq_true_2 by done. simpl. lia.
  - rewrite bool_decide_eq_false_2 by done. lia.
Qed.

(** X3.  The hash join returns, for each left row, as many rows as there are
    right rows with its key.  When no key value occurs twice on the
    right (a dimension joined on its key), that is one row for each left
    row that has a match and none for the others, so never more rows
    than the left dataset has. *)
Theorem hash_join_row_count A B lk rk (join_type : string) (rows : list dict) :
  hash_join_rows A B lk rk join_type = Returned rows →
  length rows = fold_right Nat.add 0 (map (matches_of lk rk B) (iterrows A)) ∧
  ((∀ v, occurrences rk v B ≤ 1) →
   length rows =
     length (List.filter (fun l => bool_decide (matches_of lk rk B l = 1))
               (iterrows A)) ∧
   length rows ≤ length (data A)).
Proof.
  intros Hret. apply hash_join_rows_returns in Hret as (_ & _ & ->).
  rewrite (Permutation_length (hash_pairs_perm lk rk _ _)), pairs_length.
  split; [done|]. intros Huniq.
  destruct (unique_matches lk rk B (iterrows A) Huniq) as [Heq Hle].
  rewrite iterrows_length in Hle. done.
Qed.

Lemma hash_join_row_count_witness :
  ∃ rows, hash_join_rows left_3 right_2 "id" "id" "inner" = Returned rows ∧
          length rows =
            fold_right Nat.add 0 (map (matches_of "id" "id" right_2) (iterrows left_3)) ∧
          length rows ≤ length (data left_3).
Proof.
  eexists. split; [vm_compute; reflexivity|].
  destruct (hash_join_row_count left_3 right_2 "id" "id" "inner" _ eq_refl)
    as [Hsum Huniq].
  split; [exact Hsum|]. apply Huniq.
  intros v. unfold occurrences, key_is. simpl.
  destruct (bool_decide (VInt 2 = v)) eqn:E2, (bool_decide (VInt 3 = v)) eqn:E3;
    simpl; try lia.
  apply bool_decide_eq_true in E2, E3. congruence.
Defined.

Lemma joined_pair_match lk rk l r v :
  getitem l lk = Returned v → getitem r rk = Returned v →
  joined_pair lk rk l r = [dict_merge (to_dict l) (to_dict r)].
Proof. intros Hl Hr. unfold joined_pair. rewrite Hl, Hr. by rewrite decide_True. Qed.

(** X4.  The hash join returns the empty frame, which has no columns at all,
    exactly when no left row and right row have the same key. *)
Theorem hash_join_empty_iff A B lk rk (join_type : string) (rows : list dict) :
  hash_join_rows A B lk rk join_type = Returned rows →
  (rows = [] ↔
   ∀ l r v, l ∈ iterrows A → r ∈ iterrows B →
            getitem l lk = Returned v → getitem r rk ≠ Returned v) ∧
  (hash_join A B lk rk join_type = Returned empty_frame ↔ rows = []).
Proof.
  intros Hret. split.
  - apply hash_join_rows_returns in Hret as (_ & _ & ->). split.
    + intros Hnil l r v Hl Hr Hlv Hrv.
      assert (Hin : dict_merge (to_dict l) (to_dict r) ∈
                    hash_pairs lk rk (iterrows A) (iterrows B)).
      { rewrite (hash_pairs_perm lk rk _ _).
        apply list_elem_of_In, in_flat_map. exists l.
        split; [by apply list_elem_of_In|].
        apply in_flat_map. exists r. split; [by apply list_elem_of_In|].
        rewrite (joined_pair_match lk rk l r v) by done. by left. }
      rewrite Hnil in Hin. by inversion Hin.
    + intros Hnone.
      destruct (hash_pairs lk rk (iterrows A) (iterrows B)) as [|d rest] eqn:Hp;
        [done|].
      assert (Hd : d ∈ hash_pairs lk rk (iterrows A) (iterrows B))
        by (rewrite Hp; left).
      apply hash_pairs_from_pair in Hd as (l & r & v & Hl & Hr & Hlv & Hrv & _).
      by destruct (Hnone l r v Hl Hr Hlv).
  - unfold hash_join. rewrite Hret. simpl. split.
    + intros [= Hdf]. by destruct rows.
    + by intros ->.
Qed.

Lemma hash_join_empty_iff_witness :
  hash_join left_3 no_key_empty "id" "name" "inner" = Returned empty_frame.
Proof.
  apply (proj2 (hash_join_empty_iff left_3 no_key_empty "id" "name" "inner" []
                  eq_refl)).
  reflexivity.
Defined.

Lemma nested_outer_keys lk rk (lefts rights : list Series) (acc : list dict) :
  Forall (has_key lk) lefts → Forall (has_key rk) rights →
  nested_outer lefts rights (keys_equal lk rk) acc =
  Returned (acc ++ flat_map (fun l => flat_map (joined_pair lk rk l) rights) lefts).
Proof.
  intros Hl Hr. revert acc.
  induction Hl as [|l lefts Hkl Hl IH]; intros acc; simpl.
  - by rewrite app_nil_r.
  - unfold keys_equal at 1.
    rewrite (nested_inner_spec lk rk l rights acc Hkl Hr). simpl.
    rewrite IH. by rewrite <- app_assoc.
Qed.

(** X5.  On key columns lk and rk that both datasets carry, the hash join and
    the nested-loop join with the predicate l[lk] == r[rk] return the same
    rows up to order.  When the left dataset has more rows than the right
    one they return the same list; otherwise the hash join lists its rows
    right row by right row. *)
Theorem hash_join_row_order A B lk rk (join_type : string) :
  wf_frame A → wf_frame B → lk ∈ columns A → rk ∈ columns B →
  ∃ hs ns,
    hash_join_rows A B lk rk join_type = Returned hs ∧
    nested_loop_join_rows A B (keys_equal lk rk) = Returned ns ∧
    hs ≡ₚ ns ∧
    ((len B < len A)%Z → hs = ns) ∧
    ((len A <= len B)%Z →
     hs = flat_map (fun r => flat_map (fun l => joined_pair lk rk l r) (iterrows A))
            (iterrows B)).
Proof.
  intros HA HB HkA HkB.
  assert (HallA : Forall (has_key lk) (iterrows A)) by (apply all_have_key; auto).
  assert (HallB : Forall (has_key rk) (iterrows B)) by (apply all_have_key; auto).
  eexists _, _. split; [by apply hash_join_rows_spec|].
  split; [by apply (nested_outer_keys lk rk _ _ [])|].
  split; [apply hash_pairs_perm|]. simpl.
  unfold hash_pairs, len. rewrite !iterrows_length. split.
  - intros Hlt. by rewrite (proj2 (Z.leb_gt _ _)) by lia.
  - intros Hle. by rewrite (proj2 (Z.leb_le _ _)) by lia.
Qed.

Lemma hash_join_row_order_witness :
  ∃ hs ns,
    hash_join_rows left_3 right_2 "id" "id" "inner" = Returned hs ∧
    nested_loop_join_rows left_3 right_2 (keys_equal "id" "id") = Returned ns ∧
    hs ≡ₚ ns ∧
    ((len right_2 < len left_3)%Z → hs = ns) ∧
    ((len left_3 <= len right_2)%Z →
     hs = flat_map (fun r => flat_map (fun l => joined_pair "id" "id" l r)
                               (iterrows left_3)) (iterrows right_2)).
Proof.
  apply (hash_join_row_order left_3 right_2 "id" "id" "inner"); compute_done.
Defined.

(** X6.  Without the key column the two joins part ways: when one dataset has
    rows but not the column k and the other has no rows, the hash join
    raises KeyError while the nested-loop join with the predicate
    l[k] == r[k] returns the empty frame. *)
Theorem missing_key_joins_differ A B k (join_type : string) :
  wf_frame A → wf_frame B →
  (data A ≠ [] ∧ (k ∉ columns A) ∧ data B = []) ∨
  (data B ≠ [] ∧ (k ∉ columns B) ∧ data A = []) →
  hash_join A B k k join_type = Raised (KeyError k) ∧
  nested_loop_join A B (key_equal k) = Returned empty_frame.
Proof.
  intros HA HB Hcase. split.
  - unfold hash_join, hash_join_rows.
    assert (Hnot : ¬ Forall (has_key k) (iterrows A) ∨
                   ¬ Forall (has_key k) (iterrows B)).
    { destruct Hcase as [(Hd & Hk & _)|(Hd & Hk & _)]; [left|right];
        intros Hall; apply all_have_key in Hall; tauto. }
    destruct (len A <=? len B)%Z.
    + destruct (all_have_key_cases (iterrows A) k) as [HallA|HallA].
      * destruct (build_spec (iterrows A) k ∅ HallA) as (m & -> & _). simpl.
        rewrite probe_raises; [done|tauto].
      * by rewrite build_raises.
    + destruct (all_have_key_cases (iterrows B) k) as [HallB|HallB].
      * destruct (build_spec (iterrows B) k ∅ HallB) as (m & -> & _). simpl.
        rewrite probe_raises; [done|tauto].
      * by rewrite build_raises.
  - unfold nested_loop_join, nested_loop_join_rows. rewrite nested_outer_scan.
    assert (Hcross : cross (iterrows A) (iterrows B) = []).
    { unfold cross, iterrows.
      destruct Hcase as [(_ & _ & ->)|(_ & _ & ->)]; simpl; [|done].
      induction (data A); simpl; done. }
    by rewrite Hcross.
Qed.

Lemma missing_key_joins_differ_witness :
  hash_join no_key_empty right_2 "name" "name" "inner" = Raised (KeyError "name") ∧
  nested_loop_join no_key_empty right_2 (key_equal "name") = Returned empty_frame.
Proof.
  apply (missing_key_joins_differ no_key_empty right_2 "name" "inner");
    [compute_done|compute_done|].
  right. split; [done|]. split; [compute_done|done].
Defined.

Lemma merged_carries A B l r :
  wf_frame A → wf_frame B → l ∈ iterrows A → r ∈ iterrows B →
  carries A B (dict_merge (to_dict l) (to_dict r)).
Proof.
  intros HA HB Hl Hr. exists l, r. split; [done|]. split; [done|]. split; [done|].
  split; [by apply merged_row|].
  intros c v.
  rewrite (iterrows_to_dict A l HA Hl), (iterrows_to_dict B r HB Hr).
  assert (Hnd : NoDup (map fst r)).
  { rewrite (iterrows_keys B r HB Hr). apply HB. }
  unfold dict_merge. rewrite dict_get_update by done.
  rewrite !getitem_dict_get. rewrite <- (iterrows_keys B r HB Hr).
  destruct (dict_get r c) as [w|] eqn:Hrc.
  - split; [intros [= ->]; by left|].
    intros [[= ->]|[Hc _]]; [done|]. apply dict_get_None in Hc. congruence.
  - apply dict_get_None in Hrc. destruct (dict_get l c) as [w|].
    + split; [intros [= ->]; by right|]. by intros [?|[_ [= ->]]].
    + split; [done|]. by intros [?|[_ ?]].
Qed.

(** X7.  In both joins a combined row loses no column and invents no value:
    its columns are those of the left dataset followed by the new ones of
    the right dataset, and a column holds v exactly when the right row
    holds v there, or the right dataset lacks the column and the left row
    holds v there. *)
Theorem joins_carry_both_rows A B :
  wf_frame A → wf_frame B →
  (∀ lk rk (join_type : string) (rows : list dict),
     hash_join_rows A B lk rk join_type = Returned rows →
     Forall (carries A B) rows) ∧
  (∀ condition_func (rows : list dict),
     nested_loop_join_rows A B condition_func = Returned rows →
     Forall (carries A B) rows).
Proof.
  intros HA HB. split.
  - intros lk rk join_type rows Hret.
    apply hash_join_rows_returns in Hret as (_ & _ & ->).
    apply Forall_forall. intros d Hd.
    apply hash_pairs_from_pair in Hd as (l & r & v & Hl & Hr & _ & _ & ->).
    by apply merged_carries.
  - intros condition_func rows Hret.
    apply Forall_forall. intros d Hd.
    destruct (nested_outer_elem _ _ _ _ _ Hret d Hd) as [Hnil|(l & r & Hl & Hr & ->)].
    + by inversion Hnil.
    + by apply merged_carries.
Qed.

Lemma joins_carry_both_rows_witness :
  ∃ rows, hash_join_rows left_3 right_2 "id" "id" "inner" = Returned rows ∧
          rows ≠ [] ∧ Forall (carries left_3 right_2) rows.
Proof.
  assert (HA : wf_frame left_3) by compute_done.
  assert (HB : wf_frame right_2) by compute_done.
  eexists. split; [vm_compute; reflexivity|]. split; [done|].
  apply (proj1 (joins_carry_both_rows left_3 right_2 HA HB) "id" "id" "inner")%string.
  vm_compute. reflexivity.
Defined.

End HashJoinExtras.

(** * More on the date dimension *)

Section CalendarExtras.

Local Open Scope Z_scope.

Lemma days_from_civil_from_days (t : Timestamp) :
  days_from_civil (civil_from_days t) = t ∧ valid_date (civil_from_days t) = true.
Proof.
  unfold civil_from_days.
  set (z := t + 719468).
  set (era := z / 146097).
  set (doe := z - era * 146097).
  assert (Hdoe : 0 <= doe <= 146096) by (unfold doe, era; div_lia).
  set (yoe := (doe - doe / 1460 + doe / 36524 - doe / 146096) / 365).
  set (doy := doe - (365 * yoe + yoe / 4 - yoe / 100)).
  assert (Hyoe : 0 <= yoe <= 399) by (unfold yoe; div_lia).
  assert (Hdoy : 0 <= doy <= 365) by (unfold doy, yoe; div_lia).
  assert (Hleap : doy = 365 → (yoe + 1) mod 4 = 0 ∧
                  ((yoe + 1) mod 100 ≠ 0 ∨ (yoe + 1) mod 400 = 0)).
  { unfold doy, yoe. div_lia. }
  set (mp := (5 * doy + 2) / 153).
  assert (Hmp : 0 <= mp <= 11) by (unfold mp; div_lia).
  set (d := doy - (153 * mp + 2) / 5 + 1).
  assert (Hd : 1 <= d <= 31 ∧ (153 * mp + 2) / 5 + d - 1 = doy)
    by (unfold d, mp; div_lia).
  assert (Hlen : doy < (153 * (mp + 1) + 2) / 5) by (unfold mp; div_lia).
  assert (Hdoe' : doe = yoe * 365 + yoe / 4 - yoe / 100 + doy) by (unfold doy; lia).
  assert (Ht : t = era * 146097 + doe - 719468) by (unfold doe, z; lia).
  destruct Hd as [Hd Hdoy'].
  clearbody d mp doy yoe doe era. clear z.
  assert (Hcases : mp = 0 ∨ mp = 1 ∨ mp = 2 ∨ mp = 3 ∨ mp = 4 ∨ mp = 5 ∨
                   mp = 6 ∨ mp = 7 ∨ mp = 8 ∨ mp = 9 ∨ mp = 10 ∨ mp = 11) by lia.
  set (m := if mp <? 10 then mp + 3 else mp - 9).
  assert (Hm : (mp < 10 ∧ m = mp + 3) ∨ (10 <= mp ∧ m = mp - 9)).
  { unfold m. destruct (mp <? 10) eqn:E;
      [apply Z.ltb_lt in E; left|apply Z.ltb_ge in E; right]; lia. }
  split.
  - unfold days_from_civil. cbn [year month day].
    set (y' := if m <=? 2 then _ - 1 else _).
    assert (Hy' : y' = yoe + era * 400).
    { unfold y'. destruct (m <=? 2); lia. }
    set (mp' := if 2 <? m then m - 3 else m + 9).
    assert (Hmp' : mp' = mp).
    { unfold mp'. destruct (2 <? m) eqn:E;
        [apply Z.ltb_lt in E|apply Z.ltb_ge in E]; lia. }
    rewrite Hy', Hmp'.
    assert (He : (yoe + era * 400) / 400 = era) by div_lia.
    rewrite He.
    replace (yoe + era * 400 - era * 400) with yoe by lia.
    rewrite Hdoy'. lia.
  - unfold valid_date, days_in_month. cbn [year month day].
    rewrite !andb_true_iff, !Z.leb_le.
    clear Hm. unfold m. clear m.
    destruct Hcases as [->|[->|[->|[->|[->|[->|[->|[->|[->|[->|[->| ->]]]]]]]]]]];
      simpl in Hdoy', Hlen |- *; try (repeat split; div_lia).
    repeat split; try lia.
    destruct (is_leap (yoe + era * 400 + 1)) eqn:Hl; [div_lia|].
    assert (d <> 29); [|div_lia]. intros ->.
    assert (Hy : is_leap (yoe + era * 400 + 1) = true); [|congruence].
    apply is_leap_spec. destruct Hleap as [H4 H100]; [div_lia|].
    clear -H4 H100 Hyoe. div_lia.
Qed.

(** X8.  Every row of the date dimension is a real calendar day, the day
    that many days after the start: its date is valid, converts back to
    the day it stands for, and the Day, Month and Year columns repeat it;
    so two different rows never carry the same date. *)
Theorem date_dimension_rows_are_days (s e : Timestamp) :
  (∀ (i : nat) (row : DateRow),
     date_dimension s e !! i = Some row →
     valid_date (Full_Date row) = true ∧
     days_from_civil (Full_Date row) = s + Z.of_nat i ∧
     Full_Date row = mkDate (Year row) (Month row) (Day row)) ∧
  (∀ (i j : nat) (row_i row_j : DateRow),
     date_dimension s e !! i = Some row_i →
     date_dimension s e !! j = Some row_j →
     Full_Date row_i = Full_Date row_j → i = j).
Proof.
  assert (Hrow : ∀ (i : nat) (row : DateRow),
            date_dimension s e !! i = Some row →
            valid_date (Full_Date row) = true ∧
            days_from_civil (Full_Date row) = s + Z.of_nat i ∧
            Full_Date row = mkDate (Year row) (Month row) (Day row)).
  { intros i row Hrow. apply date_dimension_lookup in Hrow as [-> _].
    unfold date_row. cbn [Full_Date Year Month Day].
    destruct (days_from_civil_from_days (s + Z.of_nat i)) as [Hback Hvalid].
    split; [done|]. split; [done|]. by destruct (civil_from_days _). }
  split; [exact Hrow|].
  intros i j row_i row_j Hi Hj Heq.
  destruct (Hrow i row_i Hi) as (_ & Hdi & _).
  destruct (Hrow j row_j Hj) as (_ & Hdj & _).
  rewrite Heq in Hdi. lia.
Qed.

Lemma date_dimension_rows_are_days_witness :
  valid_date (Full_Date (date_row 2 19782)) = true ∧
  days_from_civil (Full_Date (date_row 2 19782)) = 19781 + Z.of_nat 1 ∧
  Full_Date (date_row 2 19782) =
    mkDate (Year (date_row 2 19782)) (Month (date_row 2 19782))
      (Day (date_row 2 19782)).
Proof.
  apply (proj1 (date_dimension_rows_are_days 19781 19783) 1%nat (date_row 2 19782)).
  vm_compute. reflexivity.
Defined.

(** X9.  The Quarter and Month_Name columns follow the month: Q1 for January
    to March, Q2 for April to June, Q3 for July to September and Q4 for
    October to December, and the month's English name. *)
Theorem date_dimension_quarters (s e : Timestamp) (i : nat) (row : DateRow) :
  date_dimension s e !! i = Some row →
  (Quarter row = "Q1"%string ↔ 1 <= Month row <= 3) ∧
  (Quarter row = "Q2"%string ↔ 4 <= Month row <= 6) ∧
  (Quarter row = "Q3"%string ↔ 7 <= Month row <= 9) ∧
  (Quarter row = "Q4"%string ↔ 10 <= Month row <= 12) ∧
  ["January"; "February"; "March"; "April"; "May"; "June"; "July"; "August";
   "September"; "October"; "November"; "December"]%string
    !! Z.to_nat (Month row - 1) = Some (Month_Name row).
Proof.
  intros Hrow. apply date_dimension_lookup in Hrow as [-> _].
  unfold date_row. cbn [Quarter Month Month_Name].
  pose proof (month_range (s + Z.of_nat i)) as Hm.
  set (m := month (civil_from_days (s + Z.of_nat i))) in *. clearbody m.
  assert (Hcases : m = 1 ∨ m = 2 ∨ m = 3 ∨ m = 4 ∨ m = 5 ∨ m = 6 ∨ m = 7 ∨
                   m = 8 ∨ m = 9 ∨ m = 10 ∨ m = 11 ∨ m = 12) by lia.
  destruct Hcases as [->|[->|[->|[->|[->|[->|[->|[->|[->|[->|[->| ->]]]]]]]]]]];
    vm_compute; repeat split; intros; try done;
    exfalso; intuition congruence.
Qed.

Lemma date_dimension_quarters_witness :
  (Quarter (date_row 3 19783) = "Q1"%string ↔ 1 <= Month (date_row 3 19783) <= 3) ∧
  (Quarter (date_row 3 19783) = "Q2"%string ↔ 4 <= Month (date_row 3 19783) <= 6) ∧
  (Quarter (date_row 3 19783) = "Q3"%string ↔ 7 <= Month (date_row 3 19783) <= 9) ∧
  (Quarter (date_row 3 19783) = "Q4"%string ↔ 10 <= Month (date_row 3 19783) <= 12) ∧
  ["January"; "February"; "March"; "April"; "May"; "June"; "July"; "August";
   "September"; "October"; "November"; "December"]%string
    !! Z.to_nat (Month (date_row 3 19783) - 1) = Some (Month_Name (date_row 3 19783)).
Proof.
  apply (date_dimension_quarters 19781 19783 2%nat (date_row 3 19783)).
  vm_compute. reflexivity.
Defined.

Lemma dayofweek_shift (t k : Z) : dayofweek (t + k) = (dayofweek t + k) mod 7.
Proof. unfold dayofweek. div_lia. Qed.

Lemma date_dimension_window (s e : Timestamp) (i : nat) :
  s + Z.of_nat i + 6 <= e →
  take 7 (drop i (date_dimension s e)) =
  map (fun j : nat => date_row (Z.of_nat (i + j) + 1) (s + Z.of_nat (i + j)))
    (seq 0 7).
Proof.
  intros Hfit. apply list_eq. intros j.
  destruct (decide (j < 7)%nat) as [Hj|Hj].
  - rewrite lookup_take_lt, lookup_drop by done.
    rewrite list_lookup_fmap, lookup_seq_lt by done. simpl.
    apply date_dimension_lookup. split; [done|]. lia.
  - rewrite lookup_take_ge by lia.
    rewrite list_lookup_fmap, lookup_seq_ge by lia. done.
Qed.

(** X10.  The weekend flag depends on the day of the week alone: a row and
    the row seven days later carry the same flag, and any seven
    consecutive rows hold exactly two Weekend rows. *)
Theorem date_dimension_weekends (s e : Timestamp) (i : nat) :
  (∀ row row', date_dimension s e !! i = Some row →
               date_dimension s e !! (i + 7)%nat = Some row' →
               Weekday_Weekend row' = Weekday_Weekend row) ∧
  (s + Z.of_nat i + 6 <= e →
   length (List.filter (fun row => String.eqb (Weekday_Weekend row) "Weekend")
             (take 7 (drop i (date_dimension s e)))) = 2%nat).
Proof.
  split.
  - intros row row' Hrow Hrow'.
    apply date_dimension_lookup in Hrow as [-> _].
    apply date_dimension_lookup in Hrow' as [-> _].
    unfold date_row. cbn [Weekday_Weekend].
    replace (s + Z.of_nat (i + 7)) with (s + Z.of_nat i + 7) by lia.
    rewrite (dayofweek_shift (s + Z.of_nat i) 7).
    assert (Hw : (dayofweek (s + Z.of_nat i) + 7) mod 7 = dayofweek (s + Z.of_nat i))
      by (unfold dayofweek; div_lia).
    by rewrite Hw.
  - intros Hfit. rewrite date_dimension_window by done.
    cbn [seq map List.filter date_row Weekday_Weekend].
    set (t0 := s + Z.of_nat i).
    replace (s + Z.of_nat (i + 0)) with (t0 + 0) by lia.
    replace (s + Z.of_nat (i + 1)) with (t0 + 1) by lia.
    replace (s + Z.of_nat (i + 2)) with (t0 + 2) by lia.
    replace (s + Z.of_nat (i + 3)) with (t0 + 3) by lia.
    replace (s + Z.of_nat (i + 4)) with (t0 + 4) by lia.
    replace (s + Z.of_nat (i + 5)) with (t0 + 5) by lia.
    replace (s + Z.of_nat (i + 6)) with (t0 + 6) by lia.
    clearbody t0. rewrite !(dayofweek_shift t0).
    assert (Hw : 0 <= dayofweek t0 <= 6) by (unfold dayofweek; div_lia).
    set (w := dayofweek t0) in *. clearbody w.
    assert (Hcases : w = 0 ∨ w = 1 ∨ w = 2 ∨ w = 3 ∨ w = 4 ∨ w = 5 ∨ w = 6) by lia.
    destruct Hcases as [->|[->|[->|[->|[->|[->| ->]]]]]]; reflexivity.
Qed.

Lemma date_dimension_weekends_witness :
  length (List.filter (fun row => String.eqb (Weekday_Weekend row) "Weekend")
            (take 7 (drop 0 (date_dimension 19781 19790)))) = 2%nat.
Proof.
  apply (proj2 (date_dimension_weekends 19781 19790 0)). simpl. lia.
Defined.

End CalendarExtras.

(** * More on the batch loaders *)

Section LoaderExtras.

Implicit Types (drv : driver) (cfg : db_config) (t : trace).

Ltac run_calls :=
  unfold load_fact_batch, load_dimension_batch, fact_steps, dimension_steps,
    try_except, bindM, invoke, read_rowcount, ret, raise, failed_result;
  repeat match goal with
    | |- context [fails ?d ?t ?c] =>
        let E := fresh "E" in destruct (fails d t c) eqn:E
    end.

Lemma prepare_known (table_name : string) (data_batch : DataFrame) :
  (table_name ∈ dimension_tables → ∃ sql, prepare table_name data_batch =
                                          Some (sql, data data_batch)) ∧
  (table_name ∉ dimension_tables → prepare table_name data_batch = None).
Proof.
  unfold prepare, dimension_tables. split.
  - intros Hin. repeat (apply elem_of_cons in Hin as [->|Hin]);
      [..|by inversion Hin]; simpl; by eexists.
  - intros Hout.
    repeat match goal with
      | |- context [String.eqb ?a ?b] =>
          destruct (String.eqb_spec a b) as [->|?];
          [exfalso; apply Hout; set_solver|]
      end.
    done.
Qed.

(** X11.  A batch loader gives its connection back exactly when it reports
    success.  If [connect] itself fails nothing is opened; once it has
    succeeded, a success leaves as many connections open as before the
    call and a failure leaves one more. *)
Theorem load_batch_releases_on_success_only drv cfg (table_name : string)
    (data_batch : DataFrame) (thread_id : nat) t :
  (∃ r t',
     load_dimension_batch drv cfg table_name data_batch thread_id t = (Returned r, t') ∧
     match fails drv t (Connect cfg) with
     | Some _ => status r = "failed"%string ∧ t' = t
     | None =>
         (status r = "success"%string ∧ open_connections t' = open_connections t) ∨
         (status r = "failed"%string ∧
          open_connections t' = (open_connections t + 1)%Z)
     end) ∧
  (∃ r t',
     load_fact_batch drv cfg data_batch thread_id t = (Returned r, t') ∧
     match fails drv t (Connect cfg) with
     | Some _ => status r = "failed"%string ∧ t' = t
     | None =>
         (status r = "success"%string ∧ open_connections t' = open_connections t) ∨
         (status r = "failed"%string ∧
          open_connections t' = (open_connections t + 1)%Z)
     end).
Proof.
  split.
  - unfold load_dimension_batch.
    destruct (prepare table_name data_batch) as [[sql data_tuples]|];
      run_calls; eexists _, _; (split; [reflexivity|]); cbn [status];
      try (split; reflexivity);
      rewrite !open_connections_app; simpl;
      first [left; split; [reflexivity|lia] | right; split; [reflexivity|lia]].
  - run_calls; eexists _, _; (split; [reflexivity|]); cbn [status];
      try (split; reflexivity);
      rewrite !open_connections_app; simpl;
      first [left; split; [reflexivity|lia] | right; split; [reflexivity|lia]].
Qed.

(** X12.  A table name outside the five dimension tables is not refused up
    front: [load_dimension_batch] connects, opens a cursor, finds no
    statement to run, and returns a failed result with zero rows, having
    sent nothing to the store and left the connection open. *)
Theorem load_dimension_batch_unknown_table drv cfg (table_name : string)
    (data_batch : DataFrame) (thread_id : nat) t :
  table_name ∉ dimension_tables →
  fails drv t (Connect cfg) = None →
  fails drv (t ++ [Connect cfg]) Cursor = None →
  load_dimension_batch drv cfg table_name data_batch thread_id t =
    (Returned (mkLoadResult thread_id table_name 0 "failed" (Some "sql")),
     t ++ [Connect cfg; Cursor]) ∧
  open_connections (t ++ [Connect cfg; Cursor]) = (open_connections t + 1)%Z.
Proof.
  intros Hout Hc Hcur.
  apply (proj2 (prepare_known table_name data_batch)) in Hout.
  unfold load_dimension_batch, try_except, bindM, invoke, raise, ret, failed_result.
  rewrite Hc, Hcur, Hout. simpl. rewrite <- app_assoc. split; [done|].
  rewrite open_connections_app. simpl. lia.
Qed.

Lemma load_dimension_batch_unknown_table_witness :
  load_dimension_batch healthy cfg0 "Sales_Fact" stores_2 0 [] =
    (Returned (mkLoadResult 0 "Sales_Fact" 0 "failed" (Some "sql")),
     [] ++ [Connect cfg0; Cursor]) ∧
  open_connections ([] ++ [Connect cfg0; Cursor]) = (open_connections [] + 1)%Z.
Proof.
  apply (load_dimension_batch_unknown_table healthy cfg0 "Sales_Fact" stores_2 0 []);
    [compute_done|done|done].
Defined.

(** X13.  A failure while closing comes too late to undo the load: when the
    statement and the commit succeed and [cursor.close()] or
    [conn.close()] raises, either loader reports the batch as failed with
    zero rows although the rows were committed. *)
Theorem load_batch_fails_after_commit drv cfg (table_name : string)
    (data_batch : DataFrame) (thread_id : nat) t msg :
  (∀ sql data_tuples,
     prepare table_name data_batch = Some (sql, data_tuples) →
     first_failure drv t
       [Connect cfg; Cursor; Executemany sql data_tuples; Commit] = None →
     first_failure drv
       (t ++ [Connect cfg; Cursor; Executemany sql data_tuples; Commit])
       [CursorClose; ConnClose] = Some msg →
     ∃ t', load_dimension_batch drv cfg table_name data_batch thread_id t =
             (Returned (mkLoadResult thread_id table_name 0 "failed" (Some msg)), t') ∧
           (t ++ [Connect cfg; Cursor; Executemany sql data_tuples; Commit])
             `prefix_of` t') ∧
  (first_failure drv t
     [Connect cfg; Cursor; Executemany sql_fact (data data_batch); Commit] = None →
   first_failure drv
     (t ++ [Connect cfg; Cursor; Executemany sql_fact (data data_batch); Commit])
     [CursorClose; ConnClose] = Some msg →
   ∃ t', load_fact_batch drv cfg data_batch thread_id t =
           (Returned (mkLoadResult thread_id "Sales_Fact" 0 "failed" (Some msg)), t') ∧
         (t ++ [Connect cfg; Cursor; Executemany sql_fact (data data_batch); Commit])
           `prefix_of` t').
Proof.
  split.
  - intros sql data_tuples Hprep.
    replace (t ++ [Connect cfg; Cursor; Executemany sql data_tuples; Commit])
      with ((((t ++ [Connect cfg]) ++ [Cursor]) ++
             [Executemany sql data_tuples]) ++ [Commit])
      by (by rewrite <- !app_assoc).
    cbn [first_failure]. unfold load_dimension_batch. rewrite Hprep.
    run_calls; intros Hok Hclose; try discriminate; injection Hclose as <-;
      eexists; (split; [reflexivity|]).
    + exists []. by rewrite app_nil_r.
    + by exists [CursorClose].
  - replace (t ++ [Connect cfg; Cursor; Executemany sql_fact (data data_batch); Commit])
      with ((((t ++ [Connect cfg]) ++ [Cursor]) ++
             [Executemany sql_fact (data data_batch)]) ++ [Commit])
      by (by rewrite <- !app_assoc).
    cbn [first_failure].
    run_calls; intros Hok Hclose; try discriminate; injection Hclose as <-;
      eexists; (split; [reflexivity|]).
    + exists []. by rewrite app_nil_r.
    + by exists [CursorClose].
Qed.

Lemma load_batch_fails_after_commit_witness :
  ∃ t', load_fact_batch
          (mkDriver (fun _ c => match c with
                                | ConnClose => Some "Lost connection"%string
                                | _ => None
                                end) submitted)
          cfg0 stores_2 0 [] =
        (Returned (mkLoadResult 0 "Sales_Fact" 0 "failed" (Some "Lost connection")), t') ∧
        ([] ++ [Connect cfg0; Cursor; Executemany sql_fact (data stores_2); Commit])
          `prefix_of` t'.
Proof.
  apply (proj2 (load_batch_fails_after_commit
                  (mkDriver (fun _ c => match c with
                                        | ConnClose => Some "Lost connection"%string
                                        | _ => None
                                        end) submitted)
                  cfg0 "Store_Dim" stores_2 0 [] "Lost connection")); reflexivity.
Defined.

End LoaderExtras.

(** * More on parallel_load *)

Section ParallelLoadExtras.

Implicit Types (cfg : db_config) (t : trace).



Lemma failures_perm (rs1 rs2 : list LoadResult) :
  rs1 ≡ₚ rs2 → failures rs1 = failures rs2.
Proof. intros H. unfold failures. by rewrite (filter_length_perm _ _ _ H). Qed.






End ParallelLoadExtras.

(** * The pipeline's connection *)

Section ConnectionFacts.

Import DatabaseConnection ETLPipeline.

Implicit Types (srv : server) (self : Conn).

Lemma new_handle_connected (h : nat) (l : gset nat) : h ∈ {[h]} ∪ l.
Proof. apply elem_of_union_l. by apply elem_of_singleton. Qed.

Lemma closed_handle_gone (h : nat) (l : gset nat) : h ∉ l ∖ {[h]}.
Proof. intros [_ Hn]%elem_of_difference. apply Hn. by apply elem_of_singleton. Qed.

Lemma absent_handle_removed (h : nat) (l : gset nat) : h ∉ l → l = l ∖ {[h]}.
Proof.
  intros Hh. symmetry. apply difference_disjoint_L.
  by apply disjoint_singleton_r.
Qed.

(** X17.  [get_connection] opens at most one connection: when the object's
    connection is alive it is returned and the server is left alone, and
    asking again right after a successful call returns the same handle
    without another connect. *)
Theorem get_connection_reuses srv self h srv' self' :
  get_connection srv self = (Returned h, srv', self') →
  connection self' = Some h ∧ is_connected srv' h = true ∧
  get_connection srv' self' = (Returned h, srv', self') ∧
  (∀ h0, connection self = Some h0 → is_connected srv h0 = true →
         h = h0 ∧ srv' = srv ∧ self' = self).
Proof.
  unfold get_connection, connect, is_connected.
  destruct (connection self) as [h0|] eqn:Hc.
  - destruct (bool_decide (h0 ∈ live srv)) eqn:Hl.
    + intros [= <- <- <-]. rewrite Hc, Hl.
      split; [done|]. split; [done|]. split; [done|].
      intros h1 [= <-] _. done.
    + destruct (refuses srv) eqn:Hr; [done|]. intros [= <- <- <-]. simpl.
      rewrite bool_decide_eq_true_2 by apply new_handle_connected.
      split; [done|]. split; [done|]. split; [done|].
      intros h1 [= <-] Hlive. congruence.
  - destruct (refuses srv) eqn:Hr; [done|]. intros [= <- <- <-]. simpl.
    rewrite bool_decide_eq_true_2 by apply new_handle_connected.
    split; [done|]. split; [done|]. split; [done|]. intros h1 Hh1. done.
Qed.

Lemma get_connection_reuses_witness :
  connection (mkConn cfg0 (Some 0)) = Some 0 ∧
  is_connected (mkServer 1 ({[0]} ∪ ∅) None) 0 = true ∧
  get_connection (mkServer 1 ({[0]} ∪ ∅) None) (mkConn cfg0 (Some 0)) =
    (Returned 0, mkServer 1 ({[0]} ∪ ∅) None, mkConn cfg0 (Some 0)) ∧
  (∀ h0, connection (init cfg0) = Some h0 →
         is_connected (mkServer 0 ∅ None) h0 = true →
         0 = h0 ∧ mkServer 1 ({[0]} ∪ ∅) None = mkServer 0 ∅ None ∧
         mkConn cfg0 (Some 0) = init cfg0).
Proof.
  apply (get_connection_reuses (mkServer 0 ∅ None) (init cfg0) 0
           (mkServer 1 ({[0]} ∪ ∅) None) (mkConn cfg0 (Some 0))).
  reflexivity.
Defined.

Lemma close_spec srv self srv' self' :
  close srv self = (srv', self') →
  self' = self ∧
  (∀ h, connection self = Some h →
        is_connected srv' h = false ∧ live srv' = live srv ∖ {[h]}) ∧
  (connection self = None → srv' = srv) ∧
  next_handle srv' = next_handle srv ∧ refuses srv' = refuses srv.
Proof.
  unfold close, is_connected.
  destruct (connection self) as [h|] eqn:Hc.
  - destruct (bool_decide (h ∈ live srv)) eqn:Hl.
    + intros [= <- <-]. split; [done|]. split; [|done].
      intros h1 [= <-]. simpl. split; [|done].
      apply bool_decide_eq_false. apply closed_handle_gone.
    + apply bool_decide_eq_false in Hl. intros [= <- <-].
      split; [done|]. split; [|done].
      intros h1 [= <-]. split; [by apply bool_decide_eq_false|].
      by apply absent_handle_removed.
  - intros [= <- <-]. done.
Qed.

(** X18.  [close] never raises, disconnects the object's own connection and
    nothing else, and may be called again without effect.  It keeps the
    dead handle in [self.connection], so the next [get_connection] does
    not return it but connects afresh. *)
Theorem close_disconnects srv self srv' self' :
  close srv self = (srv', self') →
  self' = self ∧
  (∀ h, connection self = Some h →
        is_connected srv' h = false ∧ live srv' = live srv ∖ {[h]}) ∧
  (connection self = None → srv' = srv) ∧
  close srv' self' = (srv', self') ∧
  (∀ h, connection self = Some h → refuses srv = None → issued srv self →
        ∃ h' srv'' self'',
          get_connection srv' self' = (Returned h', srv'', self'') ∧
          h' ≠ h ∧ is_connected srv'' h' = true ∧ is_connected srv'' h = false).
Proof.
  intros Hclose.
  destruct (close_spec srv self srv' self' Hclose) as (-> & Hdead & Hnone & Hnext & Hr).
  split; [done|]. split; [exact Hdead|]. split; [exact Hnone|]. split.
  - unfold close. destruct (connection self) as [h|] eqn:Hc; [|done].
    destruct (Hdead h eq_refl) as [-> _]. done.
  - intros h Hc Href [Hlive Hself]. destruct (Hdead h Hc) as [Hh Hlive'].
    unfold get_connection, connect. rewrite Hc, Hh, Hr, Href.
    eexists _, _, _. split; [reflexivity|]. rewrite Hnext.
    specialize (Hself h Hc). split; [lia|]. unfold is_connected. simpl. split.
    + apply bool_decide_eq_true. apply new_handle_connected.
    + apply bool_decide_eq_false. rewrite Hlive'. intros Hin.
      apply elem_of_union in Hin as [Hin|Hin]; [|by apply closed_handle_gone in Hin].
      apply elem_of_singleton in Hin. lia.
Qed.

Lemma close_disconnects_witness :
  is_connected (mkServer 1 (({[0]} ∪ ∅) ∖ {[0]}) None) 0 = false ∧
  close (mkServer 1 (({[0]} ∪ ∅) ∖ {[0]}) None) (mkConn cfg0 (Some 0)) =
    (mkServer 1 (({[0]} ∪ ∅) ∖ {[0]}) None, mkConn cfg0 (Some 0)).
Proof.
  destruct (close_disconnects (mkServer 1 ({[0]} ∪ ∅) None) (mkConn cfg0 (Some 0))
              (mkServer 1 (({[0]} ∪ ∅) ∖ {[0]}) None) (mkConn cfg0 (Some 0)))
    as (_ & Hdead & _ & Hagain & _); [reflexivity|].
  split; [by apply (Hdead 0)|exact Hagain].
Defined.

(** X19.  [connect] does not look at the connection the object already has:
    called on an object whose connection is alive, it opens a second
    connection and forgets the first, which [close] then never reaches
    and which stays connected.  A refused connect raises the driver's
    error and changes nothing. *)
Theorem connect_forgets_open_connection srv self h :
  connection self = Some h → is_connected srv h = true → issued srv self →
  (∀ msg, refuses srv = Some msg →
          connect srv self = (Raised (DriverError msg), srv, self)) ∧
  (refuses srv = None →
   ∃ h' srv1 self1 srv2 self2,
     connect srv self = (Returned h', srv1, self1) ∧ h' ≠ h ∧
     is_connected srv1 h = true ∧ is_connected srv1 h' = true ∧
     close srv1 self1 = (srv2, self2) ∧
     is_connected srv2 h' = false ∧ is_connected srv2 h = true).
Proof.
  intros Hc Hl [Hlive Hself]. unfold connect, close, is_connected in *.
  apply bool_decide_eq_true in Hl. specialize (Hself h Hc). split.
  - intros msg ->. done.
  - intros ->. eexists _, _, _, _, _. split; [reflexivity|]. simpl.
    rewrite (bool_decide_eq_true_2 (next_handle srv ∈ _)) by apply new_handle_connected.
    split; [lia|].
    split; [apply bool_decide_eq_true; by apply elem_of_union_r|].
    split; [done|]. split; [reflexivity|]. simpl.
    split; [apply bool_decide_eq_false; apply closed_handle_gone|].
    apply bool_decide_eq_true.
    apply elem_of_difference. split; [by apply elem_of_union_r|].
    intros Hin. apply elem_of_singleton in Hin. lia.
Qed.

Lemma connect_forgets_open_connection_witness :
  ∃ h' srv1 self1 srv2 self2,
    connect (mkServer 1 ({[0]} ∪ ∅) None) (mkConn cfg0 (Some 0)) =
      (Returned h', srv1, self1) ∧ h' ≠ 0 ∧
    is_connected srv1 0 = true ∧ is_connected srv1 h' = true ∧
    close srv1 self1 = (srv2, self2) ∧
    is_connected srv2 h' = false ∧ is_connected srv2 0 = true.
Proof.
  apply (connect_forgets_open_connection (mkServer 1 ({[0]} ∪ ∅) None)
           (mkConn cfg0 (Some 0)) 0); [done|compute_done| |done].
  split; simpl.
  - intros h Hh. apply elem_of_union in Hh as [Hh|Hh]; [|by inversion Hh].
    apply elem_of_singleton in Hh. lia.
  - intros h [= <-]. lia.
Defined.

(** X20.  Whatever the steps of the pipeline do to the store and to the
    connection object, and whether they return or raise, [run] hands
    back their outcome unchanged and ends with the object's connection
    closed; connections the object does not hold are left as the steps
    left them. *)
Theorem run_closes_connection
    (steps : server → Conn → result unit * server * Conn) srv db_conn
    (r : result unit) srv1 conn1 :
  steps srv db_conn = (r, srv1, conn1) →
  ∃ srv2,
    run steps srv db_conn = (r, srv2, conn1) ∧
    (∀ h, connection conn1 = Some h → is_connected srv2 h = false) ∧
    (∀ h, connection conn1 ≠ Some h → is_connected srv2 h = is_connected srv1 h).
Proof.
  intros Hsteps. unfold run. rewrite Hsteps.
  destruct (close srv1 conn1) as [srv2 conn2] eqn:Hclose.
  destruct (close_spec srv1 conn1 srv2 conn2 Hclose) as (-> & Hdead & Hnone & _).
  exists srv2. split; [done|]. split.
  - intros h Hh. by apply Hdead.
  - intros h Hh. unfold is_connected.
    destruct (connection conn1) as [h0|] eqn:Hc.
    + destruct (Hdead h0 eq_refl) as [_ ->].
      apply bool_decide_ext. rewrite elem_of_difference, elem_of_singleton.
      split; [by intros [? _]|]. intros Hin. split; [done|]. congruence.
    + by rewrite (Hnone eq_refl).
Qed.

Lemma run_closes_connection_witness :
  ∃ srv2,
    run (fun srv c => let '(_, srv', c') := get_connection srv c in
                      (Raised (ValueError "no such table"), srv', c'))
      (mkServer 0 ∅ None) (init cfg0) =
      (Raised (ValueError "no such table"), srv2, mkConn cfg0 (Some 0)) ∧
    (∀ h, connection (mkConn cfg0 (Some 0)) = Some h → is_connected srv2 h = false) ∧
    (∀ h, connection (mkConn cfg0 (Some 0)) ≠ Some h →
          is_connected srv2 h = is_connected (mkServer 1 ({[0]} ∪ ∅) None) h).
Proof.
  apply (run_closes_connection
           (fun srv c => let '(_, srv', c') := get_connection srv c in
                         (Raised (ValueError "no such table"), srv', c'))
           (mkServer 0 ∅ None) (init cfg0)).
  reflexivity.
Defined.

End ConnectionFacts.

(** * The credentials prompt *)

Section CredentialFacts.

Import Credentials.

Lemma lstrip_blank (s : string) : lstrip s = EmptyString ↔ blank s = true.
Proof.
  induction s as [|c s IH]; simpl; [done|].
  destruct (isspace c); simpl; [exact IH|]. split; discriminate.
Qed.

Lemma lstrip_starts (s : string) :
  match lstrip s with
  | EmptyString => True
  | String c _ => isspace c = false
  end.
Proof.
  induction s as [|c s IH]; simpl; [done|].
  destruct (isspace c) eqn:Hc; [exact IH|exact Hc].
Qed.

Lemma rstrip_cons (c : ascii) (s : string) :
  isspace c = false → rstrip (String c s) = String c (rstrip s).
Proof. intros Hc. simpl. rewrite Hc. by destruct (rstrip s). Qed.

Lemma rstrip_ends (s : string) :
  rstrip s = EmptyString ∨ ends_clean (rstrip s) = true.
Proof.
  induction s as [|c s [IH|IH]]; simpl; [by left| |].
  - rewrite IH. destruct (isspace c) eqn:Hc; [by left|right]. simpl. by rewrite Hc.
  - right. destruct (rstrip s) as [|c' kept]; [done|]. exact IH.
Qed.

Lemma rstrip_clean (s : string) : ends_clean s = true → rstrip s = s.
Proof.
  induction s as [|c s IH]; simpl; [done|].
  destruct s as [|c' s'].
  - simpl. intros Hc. apply negb_true_iff in Hc. by rewrite Hc.
  - intros Hs. rewrite (IH Hs). done.
Qed.

Lemma strip_trimmed (s : string) :
  strip s = EmptyString ∨ trimmed (strip s) = true.
Proof.
  unfold strip. pose proof (lstrip_starts s) as Hstart.
  destruct (lstrip s) as [|c rest]; [by left|right].
  rewrite rstrip_cons by done.
  destruct (rstrip_ends (String c rest)) as [Hnil|Hend].
  - by rewrite rstrip_cons in Hnil.
  - rewrite rstrip_cons in Hend by done. unfold trimmed. by rewrite Hstart, Hend.
Qed.

Lemma strip_of_trimmed (s : string) : trimmed s = true → strip s = s.
Proof.
  unfold trimmed, strip. destruct s as [|c rest]; [done|].
  intros [Hc Hend]%andb_true_iff. apply negb_true_iff in Hc.
  simpl lstrip. rewrite Hc. by apply rstrip_clean.
Qed.

Lemma strip_blank (s : string) : strip s = EmptyString ↔ blank s = true.
Proof.
  rewrite <- lstrip_blank. unfold strip. pose proof (lstrip_starts s) as Hstart.
  destruct (lstrip s) as [|c rest]; [done|].
  rewrite rstrip_cons by done. split; discriminate.
Qed.

Lemma or_default_trimmed (s default : string) :
  trimmed default = true → trimmed (or_default (strip s) default) = true.
Proof.
  intros Hd. destruct (strip_trimmed s) as [-> | Ht]; [done|].
  destruct (strip s); [done|exact Ht].
Qed.

(** X21.  The credentials prompt never yields an empty host, user or database
    name: each answer is stripped of surrounding white space and a blank
    answer becomes the default (localhost, root, TBWalmart), while a
    non-blank answer is kept stripped.  The password is taken exactly as
    typed.  Typing the values of a returned configuration gives that
    configuration again. *)
Theorem credentials_defaults (host_line user_line password_line database_line : string) :
  let cfg := get_database_credentials host_line user_line password_line database_line in
  trimmed (host cfg) = true ∧ trimmed (user cfg) = true ∧
  trimmed (database cfg) = true ∧
  password cfg = password_line ∧
  (host cfg = (if blank host_line then "localhost" else strip host_line)%string) ∧
  (user cfg = (if blank user_line then "root" else strip user_line)%string) ∧
  (database cfg =
     (if blank database_line then "TBWalmart" else strip database_line)%string) ∧
  get_database_credentials (host cfg) (user cfg) (password cfg) (database cfg) = cfg.
Proof.
  assert (Hfield : ∀ s default, trimmed default = true →
            or_default (strip s) default = (if blank s then default else strip s) ∧
            or_default (strip (or_default (strip s) default)) default =
              or_default (strip s) default).
  { intros s default Hd. split.
    - destruct (blank s) eqn:Hb.
      + apply strip_blank in Hb. by rewrite Hb.
      + destruct (strip s) eqn:Hs; [|done].
        apply strip_blank in Hs. congruence.
    - rewrite (strip_of_trimmed (or_default (strip s) default))
        by (by apply or_default_trimmed).
      pose proof (or_default_trimmed s default Hd) as Ht.
      by destruct (or_default (strip s) default). }
  intros cfg. unfold cfg, get_database_credentials. cbn [host user password database].
  split; [by apply or_default_trimmed|]. split; [by apply or_default_trimmed|].
  split; [by apply or_default_trimmed|]. split; [done|].
  split; [by apply Hfield|]. split; [by apply Hfield|]. split; [by apply Hfield|].
  f_equal; by apply Hfield.
Qed.

End CredentialFacts.
